(** * can-bridge: the service shell of [main.go]

    A shallow embedding of [Service] (Initialize, Start, Stop, GetStatus and
    their helpers) and of [main].  The components that the shell drives
    (configuration parser, interface setup manager, interface manager,
    watchdog, monitor, HTTP server) live in other files of the package; they
    enter the development through the record [Env], one field per method
    that [main.go] calls, each an arbitrary function of a hidden [World].
    Every call is also written to a trace together with its result, so that
    ordering properties can be read off the trace.

    Conventions:
    - a method of another component returns; what it returns and how it
      changes the world is left arbitrary, so a theorem quantified over
      [Env] and the world holds for every outcome, and also when goroutines
      started earlier (watchdog loop, HTTP handlers) changed the world
      between two calls;
    - constructors ([NewInterfaceSetupManager], [NewWatchdog], ...) only
      allocate: they produce no event and leave the world alone;
    - a method call through a nil component pointer, a read of
      [s.config.CanPorts] with [s.config] nil, and a [Printf] on a nil
      logger are run-time panics ([Panic]). *)

From Stdlib Require Import ZArith Lia.
From stdpp Require Import gmap strings list.

#[local] Set Warnings "-register-all,-clear-no-such-hyp".
Local Open Scope Z_scope.

(** ** Go values *)

(** A non-nil Go [error] is represented by its [Error()] text; [nil] is
    [None] of [option error]. *)
Definition error := string.

(** [int] is 64 bits wide on the deployment targets; [n++] wraps. *)
Definition wrap64 (z : Z) : Z := (z + 2 ^ 63) mod 2 ^ 64 - 2 ^ 63.
Definition int_incr (n : Z) : Z := wrap64 (n + 1).

(** [time.Duration] counts nanoseconds. *)
Definition Second : Z := 1000000000.

(** [context.Context] values built in [main]. *)
Inductive Context :=
| Background
| WithCancel (parent : Context)
| WithTimeout (parent : Context) (d : Z).

(** The deadline of a context, as a duration from its creation. *)
Fixpoint deadline (ctx : Context) : option Z :=
  match ctx with
  | Background => None
  | WithCancel p => deadline p
  | WithTimeout p d =>
      match deadline p with
      | Some d' => Some (Z.min d d')
      | None => Some d
      end
  end.

(** [%v] applied to a [[]string]. *)
Definition fmt_strings (l : list string) : string :=
  "[" +:+ String.concat " " l +:+ "]".

(** [fmt.Errorf(prefix + ": %w", err)] and [fmt.Sprintf("%s: %v", a, err)]. *)
Definition Errorf_wrap (prefix : string) (err : error) : error :=
  prefix +:+ ": " +:+ err.
Definition Errorf_list (prefix : string) (l : list string) : error :=
  prefix +:+ ": " +:+ fmt_strings l.

(** ** Data of the package used by [main.go] *)

Record Config := { CanPorts : list string; Port : string }.

Record InterfaceState := { Bitrate : Z; State : string; IsUp : bool }.

Record WatchdogStatusT := { Running : bool }.

(** Components are held by pointer; the model keeps whether the pointer is
    nil, the component's own state being part of the [World]. *)
Inductive ConfigProvider := NewDefaultConfigProvider (config : Config).
Inductive InterfaceSetupManager := NewInterfaceSetupManager.
Inductive InterfaceManager := NewInterfaceManager.
Inductive MessageSender := NewMessageSender.
Inductive Watchdog := NewWatchdog.
Inductive Monitor := NewMonitor.
Inductive APIHandler := NewAPIHandlerWithSetup.
Inductive Logger := DefaultLogger.

Record HttpServer := {
  Addr : string;
  ReadTimeout : Z;
  WriteTimeout : Z;
  IdleTimeout : Z
}.

Record Service := {
  config : option Config;
  configProvider : option ConfigProvider;
  setupManager : option InterfaceSetupManager;
  interfaceManager : option InterfaceManager;
  messageSender : option MessageSender;
  watchdog : option Watchdog;
  monitor : option Monitor;
  apiHandler : option APIHandler;
  server : option HttpServer;
  logger : option Logger
}.

(** Arguments of a [Printf] call. *)
Inductive Arg :=
| AStr (s : string)
| AInt (z : Z)
| ABool (b : bool)
| AStrs (l : list string)
| AErr (e : error).

(** Goroutines spawned by [Start]. *)
Inductive Goroutine := GoNodeFinder | GoListenAndServe.

(** How [main] ends. *)
Inductive Exit := ExitUsage | ExitFatal (msg : string) (err : error) | ExitDone.

Inductive Res (A : Type) := Ok (a : A) | Panic.
Arguments Ok {A} a.
Arguments Panic {A}.

Section Shell.

(** [SetupConfigT] is the type returned by [GetSetupConfig], [ActiveT] the
    type of [SystemStatus.ActiveInterfaces]; both are declared outside
    [main.go]. *)
Context {World SetupConfigT ActiveT : Type}.

Record SystemStatus := {
  SystemUptime : Z;
  ActiveInterfaces : ActiveT;
  WatchdogStatus : WatchdogStatusT
}.

(** [map[string]interface{}] with the values [GetStatus] stores. *)
Inductive Value :=
| VString (s : string)
| VBool (b : bool)
| VActive (a : ActiveT)
| VConfig (c : SetupConfigT)
| VState (st : InterfaceState)
| VMap (m : gmap string Value).

(** The methods of the other components that [main.go] calls. *)
Record Env := {
  ParseConfig : World -> (Config + error) * World;
  ValidateConfig : Config -> World -> option error * World;
  ValidateSetupConfig : World -> option error * World;
  GetAvailableInterfaces : World -> (list string + error) * World;
  SetupInterfaceWithRetry : string -> World -> option error * World;
  GetInterfaceState : string -> World -> (InterfaceState + error) * World;
  TeardownInterface : string -> World -> option error * World;
  GetSetupConfig : World -> SetupConfigT * World;
  InitializeAll : World -> option error * World;
  Cleanup : World -> unit * World;
  WatchdogStart : Context -> World -> option error * World;
  WatchdogStop : World -> option error * World;
  GetSystemStatus : World -> SystemStatus * World;
  SetupRoutes : World -> unit * World;
  ServerShutdown : Context -> World -> option error * World;
  AwaitSignal : World -> unit * World;
  DurationString : Z -> string
}.

Inductive Event :=
| EvPrintf (format : string) (args : list Arg)
| EvParseConfig (r : Config + error)
| EvValidateConfig (c : Config) (r : option error)
| EvValidateSetupConfig (r : option error)
| EvGetAvailableInterfaces (r : list string + error)
| EvSetupInterfaceWithRetry (ifName : string) (r : option error)
| EvGetInterfaceState (ifName : string) (r : InterfaceState + error)
| EvTeardownInterface (ifName : string) (r : option error)
| EvGetSetupConfig (r : SetupConfigT)
| EvInitializeAll (r : option error)
| EvCleanup
| EvWatchdogStart (ctx : Context) (r : option error)
| EvWatchdogStop (r : option error)
| EvGetSystemStatus (r : SystemStatus)
| EvSetupRoutes
| EvShutdown (ctx : Context) (r : option error)
| EvGo (g : Goroutine)
| EvAwaitSignal
| EvPrintUsage
| EvLogPrintln (msg : string)
| EvLogPrintf (format : string) (args : list Arg).

(** ** The monad of the shell

    A computation reads the service fields and the world and yields a
    result (or a panic), the new fields, the new world, and the events it
    produced, oldest first. *)

Record Out (A : Type) := {
  res : Res A;
  svc : Service;
  world : World;
  trace : list Event
}.
Arguments res {A} o.
Arguments svc {A} o.
Arguments world {A} o.
Arguments trace {A} o.

Definition M (A : Type) : Type := Service -> World -> Out A.

Definition ret {A} (a : A) : M A :=
  fun s w => {| res := Ok a; svc := s; world := w; trace := [] |}.

(** Put earlier events in front of an outcome's trace. *)
Definition prepend {A} (t : list Event) (o : Out A) : Out A :=
  match o with
  | {| res := r; svc := s; world := w; trace := t' |} =>
      {| res := r; svc := s; world := w; trace := t ++ t' |}
  end.

Definition bind {A B} (m : M A) (k : A -> M B) : M B :=
  fun s w =>
    match m s w with
    | {| res := Ok a; svc := s'; world := w'; trace := t |} =>
        prepend t (k a s' w')
    | {| res := Panic; svc := s'; world := w'; trace := t |} =>
        {| res := Panic; svc := s'; world := w'; trace := t |}
    end.

Definition panic {A} : M A :=
  fun s w => {| res := Panic; svc := s; world := w; trace := [] |}.

Definition get_svc : M Service :=
  fun s w => {| res := Ok s; svc := s; world := w; trace := [] |}.

Definition modify_svc (f : Service -> Service) : M unit :=
  fun s w => {| res := Ok tt; svc := f s; world := w; trace := [] |}.

Definition emit (ev : Event) : M unit :=
  fun s w => {| res := Ok tt; svc := s; world := w; trace := [ev] |}.

(** A call into another component: run it on the world, record the call
    with its result. *)
Definition call {A} (op : World -> A * World) (ev : A -> Event) : M A :=
  fun s w =>
    let '(r, w') := op w in
    {| res := Ok r; svc := s; world := w'; trace := [ev r] |}.

(** Reading a pointer field before going through it: nil panics. *)
Definition deref {A} (field : Service -> option A) : M A :=
  fun s w =>
    match field s with
    | Some a => {| res := Ok a; svc := s; world := w; trace := [] |}
    | None => {| res := Panic; svc := s; world := w; trace := [] |}
    end.

End Shell.

Arguments SystemStatus : clear implicits.
Arguments Value : clear implicits.
Arguments Env : clear implicits.
Arguments Event : clear implicits.
Arguments Out : clear implicits.
Arguments res {World SetupConfigT ActiveT A} o.
Arguments svc {World SetupConfigT ActiveT A} o.
Arguments world {World SetupConfigT ActiveT A} o.
Arguments trace {World SetupConfigT ActiveT A} o.
Arguments M : clear implicits.

Declare Scope shell_scope.
Notation "x ← y ; z" := (bind y (fun x => z))
  (at level 20, y at level 100, z at level 200, only parsing) : shell_scope.
Notation "y ;; z" := (bind y (fun _ => z))
  (at level 100, z at level 200, only parsing, right associativity) : shell_scope.
Local Open Scope shell_scope.

(** ** The service *)

Section ServiceMethods.

Context {World SetupConfigT ActiveT : Type}.
Variable E : Env World SetupConfigT ActiveT.

Local Abbreviation M := (M World SetupConfigT ActiveT).
Local Abbreviation Value := (Value SetupConfigT ActiveT).

(** Field assignments [s.f = v]. *)
Definition set_config (v : option Config) (s : Service) : Service :=
  {| config := v; configProvider := configProvider s;
     setupManager := setupManager s; interfaceManager := interfaceManager s;
     messageSender := messageSender s; watchdog := watchdog s;
     monitor := monitor s; apiHandler := apiHandler s; server := server s;
     logger := logger s |}.
Definition set_configProvider (v : option ConfigProvider) (s : Service) : Service :=
  {| config := config s; configProvider := v;
     setupManager := setupManager s; interfaceManager := interfaceManager s;
     messageSender := messageSender s; watchdog := watchdog s;
     monitor := monitor s; apiHandler := apiHandler s; server := server s;
     logger := logger s |}.
Definition set_setupManager (v : option InterfaceSetupManager) (s : Service) : Service :=
  {| config := config s; configProvider := configProvider s;
     setupManager := v; interfaceManager := interfaceManager s;
     messageSender := messageSender s; watchdog := watchdog s;
     monitor := monitor s; apiHandler := apiHandler s; server := server s;
     logger := logger s |}.
Definition set_interfaceManager (v : option InterfaceManager) (s : Service) : Service :=
  {| config := config s; configProvider := configProvider s;
     setupManager := setupManager s; interfaceManager := v;
     messageSender := messageSender s; watchdog := watchdog s;
     monitor := monitor s; apiHandler := apiHandler s; server := server s;
     logger := logger s |}.
Definition set_messageSender (v : option MessageSender) (s : Service) : Service :=
  {| config := config s; configProvider := configProvider s;
     setupManager := setupManager s; interfaceManager := interfaceManager s;
     messageSender := v; watchdog := watchdog s;
     monitor := monitor s; apiHandler := apiHandler s; server := server s;
     logger := logger s |}.
Definition set_watchdog (v : option Watchdog) (s : Service) : Service :=
  {| config := config s; configProvider := configProvider s;
     setupManager := setupManager s; interfaceManager := interfaceManager s;
     messageSender := messageSender s; watchdog := v;
     monitor := monitor s; apiHandler := apiHandler s; server := server s;
     logger := logger s |}.
Definition set_monitor (v : option Monitor) (s : Service) : Service :=
  {| config := config s; configProvider := configProvider s;
     setupManager := setupManager s; interfaceManager := interfaceManager s;
     messageSender := messageSender s; watchdog := watchdog s;
     monitor := v; apiHandler := apiHandler s; server := server s;
     logger := logger s |}.
Definition set_apiHandler (v : option APIHandler) (s : Service) : Service :=
  {| config := config s; configProvider := configProvider s;
     setupManager := setupManager s; interfaceManager := interfaceManager s;
     messageSender := messageSender s; watchdog := watchdog s;
     monitor := monitor s; apiHandler := v; server := server s;
     logger := logger s |}.
Definition set_server (v : option HttpServer) (s : Service) : Service :=
  {| config := config s; configProvider := configProvider s;
     setupManager := setupManager s; interfaceManager := interfaceManager s;
     messageSender := messageSender s; watchdog := watchdog s;
     monitor := monitor s; apiHandler := apiHandler s; server := v;
     logger := logger s |}.

(** [NewService]: only the logger is set. *)
Definition NewService : Service :=
  {| config := None; configProvider := None; setupManager := None;
     interfaceManager := None; messageSender := None; watchdog := None;
     monitor := None; apiHandler := None; server := None;
     logger := Some DefaultLogger |}.

(** [s.logger.Printf(format, args...)]. *)
Definition Printf (format : string) (args : list Arg) : M unit :=
  _ ← deref logger; emit (EvPrintf format args).

(** A method call through a pointer field of the service. *)
Definition via {A B} (field : Service -> option A) (m : M B) : M B :=
  _ ← deref field; m.

(** [initializeComponents]: the setup manager is stored before its
    configuration is validated; the other components are created only when
    the validation passes. *)
Definition initializeComponents : M (option error) :=
  modify_svc (set_setupManager (Some NewInterfaceSetupManager));;
  err ← via setupManager (call (ValidateSetupConfig E) EvValidateSetupConfig);
  match err with
  | Some err =>
      ret (Some (Errorf_wrap "setup configuration validation failed" err))
  | None =>
      modify_svc (set_interfaceManager (Some NewInterfaceManager));;
      modify_svc (set_messageSender (Some NewMessageSender));;
      modify_svc (set_watchdog (Some NewWatchdog));;
      modify_svc (set_monitor (Some NewMonitor));;
      modify_svc (set_apiHandler (Some NewAPIHandlerWithSetup));;
      ret None
  end.

(** The body of the [for ... range s.config.CanPorts] loop of
    [setupCanInterfaces], carrying [setupErrors] and [successCount]. *)
Fixpoint setup_loop (ports : list string) (setupErrors : list string)
    (successCount : Z) : M (list string * Z) :=
  match ports with
  | [] => ret (setupErrors, successCount)
  | ifName :: rest =>
      Printf "🔧 Setting up interface %s..." [AStr ifName];;
      err ← via setupManager
              (call (SetupInterfaceWithRetry E ifName)
                    (EvSetupInterfaceWithRetry ifName));
      match err with
      | Some err =>
          Printf "❌ Failed to setup %s: %v" [AStr ifName; AErr err];;
          setup_loop rest (setupErrors ++ [ifName +:+ ": " +:+ err]) successCount
      | None =>
          Printf "✅ Successfully set up %s" [AStr ifName];;
          st ← via setupManager
                 (call (GetInterfaceState E ifName) (EvGetInterfaceState ifName));
          match st with
          | inl state =>
              Printf "📊 %s state: bitrate=%d, state=%s, up=%t"
                [AStr ifName; AInt (Bitrate state); AStr (State state);
                 ABool (IsUp state)]
          | inr _ => ret tt
          end;;
          setup_loop rest setupErrors (int_incr successCount)
      end
  end.

(** [setupCanInterfaces]. *)
Definition setupCanInterfaces : M (option error) :=
  Printf "🔧 Setting up CAN interfaces..." [];;
  available ← via setupManager
                (call (GetAvailableInterfaces E) EvGetAvailableInterfaces);
  match available with
  | inr err =>
      Printf "⚠️ Warning: could not list available interfaces: %v" [AErr err]
  | inl available =>
      Printf "📡 Available CAN interfaces: %v" [AStrs available]
  end;;
  config ← deref config;
  acc ← setup_loop (CanPorts config) [] 0;
  let '(setupErrors, successCount) := acc in
  if decide (successCount = 0) then
    ret (Some (Errorf_list "failed to setup any CAN interfaces" setupErrors))
  else
    Printf "🎯 Successfully set up %d/%d CAN interfaces"
      [AInt successCount; AInt (Z.of_nat (length (CanPorts config)))];;
    if decide (0 < Z.of_nat (length setupErrors)) then
      ret (Some (Errorf_list "partial setup failure" setupErrors))
    else ret None.

(** [setupHTTPServer]: the gin engine and its middleware are built, the
    routes registered through the API handler, and the server value stored. *)
Definition setupHTTPServer : M unit :=
  via apiHandler (call (SetupRoutes E) (fun _ => EvSetupRoutes));;
  config ← deref config;
  let serverAddr := ":" +:+ Port config in
  modify_svc (set_server (Some {| Addr := serverAddr;
                                  ReadTimeout := 5 * Second;
                                  WriteTimeout := 10 * Second;
                                  IdleTimeout := 120 * Second |}));;
  Printf "🌐 CAN Communication Service will run at http://localhost%s"
    [AStr serverAddr].

(** [Initialize]. *)
Definition Initialize : M (option error) :=
  parsed ← call (ParseConfig E) EvParseConfig;
  match parsed with
  | inr err => ret (Some (Errorf_wrap "failed to parse configuration" err))
  | inl config =>
      verr ← call (ValidateConfig E config) (EvValidateConfig config);
      match verr with
      | Some err =>
          ret (Some (Errorf_wrap "configuration validation failed" err))
      | None =>
          modify_svc (set_config (Some config));;
          modify_svc (set_configProvider (Some (NewDefaultConfigProvider config)));;
          Printf "🚀 Starting CAN Communication Service" [];;
          Printf "📋 Configuration:" [];;
          Printf "   - CAN Ports: %v" [AStrs (CanPorts config)];;
          Printf "   - Server Port: %s" [AStr (Port config)];;
          ierr ← initializeComponents;
          match ierr with
          | Some err =>
              ret (Some (Errorf_wrap "failed to initialize components" err))
          | None =>
              serr ← setupCanInterfaces;
              match serr with
              | Some err =>
                  Printf "Warning: CAN interface setup issues: %v" [AErr err]
              | None => ret tt
              end;;
              aerr ← via interfaceManager (call (InitializeAll E) EvInitializeAll);
              match aerr with
              | Some err => Printf "Warning: %v" [AErr err]
              | None => ret tt
              end;;
              setupHTTPServer;;
              ret None
          end
      end
  end.

(** [Start]. *)
Definition Start (ctx : Context) : M (option error) :=
  err ← via watchdog (call (WatchdogStart E ctx) (EvWatchdogStart ctx));
  match err with
  | Some err => ret (Some (Errorf_wrap "failed to start watchdog" err))
  | None =>
      emit (EvGo GoNodeFinder);;
      emit (EvGo GoListenAndServe);;
      Printf "✅ CAN Communication Service started successfully" [];;
      ret None
  end.

(** The loop of [teardownCanInterfaces]. *)
Fixpoint teardown_loop (ports : list string) : M unit :=
  match ports with
  | [] => ret tt
  | ifName :: rest =>
      err ← via setupManager
              (call (TeardownInterface E ifName) (EvTeardownInterface ifName));
      match err with
      | Some err =>
          Printf "⚠️ Warning: failed to teardown %s: %v" [AStr ifName; AErr err]
      | None => ret tt
      end;;
      teardown_loop rest
  end.

(** [teardownCanInterfaces]. *)
Definition teardownCanInterfaces : M unit :=
  Printf "🔽 Tearing down CAN interfaces..." [];;
  config ← deref config;
  teardown_loop (CanPorts config);;
  Printf "✅ CAN interfaces teardown complete" [].

(** [Stop]. *)
Definition Stop (ctx : Context) : M (option error) :=
  Printf "🛑 Stopping CAN Communication Service..." [];;
  werr ← via watchdog (call (WatchdogStop E) EvWatchdogStop);
  match werr with
  | Some err => Printf "Warning: failed to stop watchdog: %v" [AErr err]
  | None => ret tt
  end;;
  s ← get_svc;
  match server s with
  | Some _ =>
      herr ← call (ServerShutdown E ctx) (EvShutdown ctx);
      match herr with
      | Some err => Printf "Warning: HTTP server shutdown error: %v" [AErr err]
      | None => ret tt
      end
  | None => ret tt
  end;;
  s ← get_svc;
  match interfaceManager s with
  | Some _ => call (Cleanup E) (fun _ => EvCleanup)
  | None => ret tt
  end;;
  s ← get_svc;
  match setupManager s with
  | Some _ => teardownCanInterfaces
  | None => ret tt
  end;;
  Printf "✅ CAN Communication Service stopped" [];;
  ret None.

(** The loop of [GetStatus] filling [interfaceStates]. *)
Fixpoint states_loop (ports : list string) (interfaceStates : gmap string Value)
    : M (gmap string Value) :=
  match ports with
  | [] => ret interfaceStates
  | ifName :: rest =>
      r ← call (GetInterfaceState E ifName) (EvGetInterfaceState ifName);
      match r with
      | inl state => states_loop rest (<[ifName := VState state]> interfaceStates)
      | inr err =>
          states_loop rest
            (<[ifName := VMap {["error" := VString err]}]> interfaceStates)
      end
  end.

(** [GetStatus]. *)
Definition GetStatus : M (gmap string Value) :=
  s ← get_svc;
  match monitor s with
  | None => ret {["status" := VString "not_initialized"]}
  | Some _ =>
      systemStatus ← call (GetSystemStatus E) EvGetSystemStatus;
      setupStatus ←
        match setupManager s with
        | Some _ =>
            cfg ← call (GetSetupConfig E) EvGetSetupConfig;
            config ← deref config;
            interfaceStates ← states_loop (CanPorts config) ∅;
            ret (<["interfaceStates" := VMap interfaceStates]>
                    (<["config" := VConfig cfg]> ∅))
        | None => ret ∅
        end;
      ret (<["setup" := VMap setupStatus]>
             (<["watchdogRunning" :=
                  VBool (Running (WatchdogStatus systemStatus))]>
             (<["activeInterfaces" :=
                  VActive (ActiveInterfaces systemStatus)]>
             (<["uptime" :=
                  VString (DurationString E (SystemUptime systemStatus))]>
             (<["status" := VString "running"]> ∅)))))
  end.

(** [main], for a run in which a shutdown signal arrives; [args] is
    [os.Args]. *)
Definition main (args : list string) : M Exit :=
  if bool_decide (1 < length args)%nat &&
     bool_decide (args !! 1%nat = Some "-h" ∨ args !! 1%nat = Some "--help")
  then emit EvPrintUsage;; ret ExitUsage
  else
    modify_svc (fun _ => NewService);;
    err ← Initialize;
    match err with
    | Some err => ret (ExitFatal "Failed to initialize service: %v" err)
    | None =>
        let ctx := WithCancel Background in
        err ← Start ctx;
        match err with
        | Some err => ret (ExitFatal "Failed to start service: %v" err)
        | None =>
            call (AwaitSignal E) (fun _ => EvAwaitSignal);;
            emit (EvLogPrintln "Shutdown signal received");;
            let shutdownCtx := WithTimeout Background (30 * Second) in
            err ← Stop shutdownCtx;
            match err with
            | Some err => emit (EvLogPrintf "Error during shutdown: %v" [AErr err])
            | None => ret tt
            end;;
            ret ExitDone
        end
    end.

End ServiceMethods.

Arguments NewService : clear implicits.

(** ** Reading traces *)

Section Traces.

Context {SetupConfigT ActiveT : Type}.
Local Abbreviation Event := (Event SetupConfigT ActiveT).
Local Abbreviation Value := (Value SetupConfigT ActiveT).

(** Names for which [SetupInterfaceWithRetry] was attempted, in order. *)
Definition setup_attempt (ev : Event) : option string :=
  match ev with
  | EvSetupInterfaceWithRetry ifName _ => Some ifName
  | _ => None
  end.
Definition setup_attempts (tr : list Event) : list string :=
  omap setup_attempt tr.

(** Outcomes of the bring-up attempts, in order. *)
Definition setup_outcome (ev : Event) : option (string * option error) :=
  match ev with
  | EvSetupInterfaceWithRetry ifName r => Some (ifName, r)
  | _ => None
  end.
Definition setup_outcomes (tr : list Event) : list (string * option error) :=
  omap setup_outcome tr.

(** The entries of [setupErrors] that a sequence of outcomes produces, and
    the number of successful bring-ups. *)
Definition failure_message (o : string * option error) : option string :=
  match o.2 with
  | Some err => Some (o.1 +:+ ": " +:+ err)
  | None => None
  end.
Definition failure_messages (l : list (string * option error)) : list string :=
  omap failure_message l.
Definition successes (l : list (string * option error)) : nat :=
  length (filter (λ o, o.2 = None) l).

(** What [setupCanInterfaces] returns for given [setupErrors] and
    [successCount]. *)
Definition setup_verdict (setupErrors : list string) (successCount : Z)
    : option error :=
  if decide (successCount = 0) then
    Some (Errorf_list "failed to setup any CAN interfaces" setupErrors)
  else if decide (0 < Z.of_nat (length setupErrors)) then
    Some (Errorf_list "partial setup failure" setupErrors)
  else None.

(** Events that the bring-up loop can produce, and those of the whole
    bring-up phase. *)
Definition loop_event (ev : Event) : bool :=
  match ev with
  | EvPrintf _ _
  | EvSetupInterfaceWithRetry _ _
  | EvGetInterfaceState _ _ => true
  | _ => false
  end.
Definition setup_phase (ev : Event) : bool :=
  match ev with
  | EvGetAvailableInterfaces _ => true
  | _ => loop_event ev
  end.
Definition is_printf (ev : Event) : bool :=
  match ev with
  | EvPrintf _ _ => true
  | _ => false
  end.

(** Log lines of [Initialize]. *)
Definition config_banner (c : Config) : list Event :=
  [EvPrintf "🚀 Starting CAN Communication Service" [];
   EvPrintf "📋 Configuration:" [];
   EvPrintf "   - CAN Ports: %v" [AStrs (CanPorts c)];
   EvPrintf "   - Server Port: %s" [AStr (Port c)]].
Definition setup_warning (r : option error) : list Event :=
  match r with
  | Some err => [EvPrintf "Warning: CAN interface setup issues: %v" [AErr err]]
  | None => []
  end.
Definition initialize_all_warning (r : option error) : list Event :=
  match r with
  | Some err => [EvPrintf "Warning: %v" [AErr err]]
  | None => []
  end.
Definition listing_log (r : list string + error) : Event :=
  match r with
  | inr err =>
      EvPrintf "⚠️ Warning: could not list available interfaces: %v" [AErr err]
  | inl available => EvPrintf "📡 Available CAN interfaces: %v" [AStrs available]
  end.

(** Names for which [TeardownInterface] was attempted, in order. *)
Definition teardown_attempt (ev : Event) : option string :=
  match ev with
  | EvTeardownInterface ifName _ => Some ifName
  | _ => None
  end.
Definition teardown_attempts (tr : list Event) : list string :=
  omap teardown_attempt tr.

(** Operations on interfaces: listing, bring-up, state query, teardown,
    handle opening. *)
Definition interface_op (ev : Event) : bool :=
  match ev with
  | EvGetAvailableInterfaces _
  | EvSetupInterfaceWithRetry _ _
  | EvGetInterfaceState _ _
  | EvTeardownInterface _ _
  | EvInitializeAll _ => true
  | _ => false
  end.

(** The shutdown steps of [Stop]. *)
Inductive Step :=
| StepWatchdogStop
| StepShutdown (ctx : Context)
| StepCleanup
| StepTeardown (ifName : string).

Definition step_of (ev : Event) : option Step :=
  match ev with
  | EvWatchdogStop _ => Some StepWatchdogStop
  | EvShutdown ctx _ => Some (StepShutdown ctx)
  | EvCleanup => Some StepCleanup
  | EvTeardownInterface ifName _ => Some (StepTeardown ifName)
  | _ => None
  end.
Definition steps (tr : list Event) : list Step := omap step_of tr.

(** The result of the last [GetInterfaceState] call for [name]. *)
Fixpoint last_state_query (name : string) (tr : list Event)
    : option (InterfaceState + error) :=
  match tr with
  | [] => None
  | ev :: tr' =>
      match last_state_query name tr' with
      | Some r => Some r
      | None =>
          match ev with
          | EvGetInterfaceState ifName r =>
              if decide (ifName = name) then Some r else None
          | _ => None
          end
      end
  end.

(** What [GetStatus] stores for a state-query result. *)
Definition state_entry (r : InterfaceState + error) : Value :=
  match r with
  | inl state => VState state
  | inr err => VMap {["error" := VString err]}
  end.

(** Names whose bring-up succeeded, and names whose state was queried. *)
Definition succeeded (o : string * option error) : option string :=
  match o.2 with
  | None => Some o.1
  | Some _ => None
  end.
Definition state_query (ev : Event) : option string :=
  match ev with
  | EvGetInterfaceState ifName _ => Some ifName
  | _ => None
  end.
Definition state_queries (tr : list Event) : list string :=
  omap state_query tr.

(** The port of a teardown step. *)
Definition torn_down (st : Step) : option string :=
  match st with
  | StepTeardown ifName => Some ifName
  | _ => None
  end.

(** Goroutines started, in order. *)
Definition spawned (ev : Event) : option Goroutine :=
  match ev with
  | EvGo g => Some g
  | _ => None
  end.

(** The log line that the shell writes for a failed call. *)
Definition warning_for (ev : Event) : option Event :=
  match ev with
  | EvGetAvailableInterfaces (inr err) =>
      Some (EvPrintf "⚠️ Warning: could not list available interfaces: %v"
              [AErr err])
  | EvSetupInterfaceWithRetry ifName (Some err) =>
      Some (EvPrintf "❌ Failed to setup %s: %v" [AStr ifName; AErr err])
  | EvInitializeAll (Some err) => Some (EvPrintf "Warning: %v" [AErr err])
  | EvWatchdogStop (Some err) =>
      Some (EvPrintf "Warning: failed to stop watchdog: %v" [AErr err])
  | EvShutdown _ (Some err) =>
      Some (EvPrintf "Warning: HTTP server shutdown error: %v" [AErr err])
  | EvTeardownInterface ifName (Some err) =>
      Some (EvPrintf "⚠️ Warning: failed to teardown %s: %v"
              [AStr ifName; AErr err])
  | _ => None
  end.

(** Every failed call of a trace is followed at once by its log line. *)
Fixpoint failures_logged (tr : list Event) : Prop :=
  match tr with
  | [] => True
  | ev :: tr' =>
      match warning_for ev with
      | Some line => head tr' = Some line
      | None => True
      end ∧ failures_logged tr'
  end.

End Traces.

(** ** Service states *)

(** All component pointers set, as after a successful [Initialize]. *)
Definition initialized (s : Service) : Prop :=
  is_Some (config s) ∧ is_Some (setupManager s) ∧
  is_Some (interfaceManager s) ∧ is_Some (watchdog s) ∧
  is_Some (monitor s) ∧ is_Some (apiHandler s) ∧ is_Some (server s) ∧
  is_Some (logger s).

(** The fields after [initializeComponents] succeeded for configuration
    [c], and the server value that [setupHTTPServer] stores. *)
Definition with_components (c : Config) (s : Service) : Service :=
  {| config := Some c;
     configProvider := Some (NewDefaultConfigProvider c);
     setupManager := Some NewInterfaceSetupManager;
     interfaceManager := Some NewInterfaceManager;
     messageSender := Some NewMessageSender;
     watchdog := Some NewWatchdog;
     monitor := Some NewMonitor;
     apiHandler := Some NewAPIHandlerWithSetup;
     server := server s;
     logger := logger s |}.
Definition server_for (c : Config) : HttpServer :=
  {| Addr := ":" +:+ Port c;
     ReadTimeout := 5 * Second;
     WriteTimeout := 10 * Second;
     IdleTimeout := 120 * Second |}.

(** What the assignments of [Initialize] maintain: the configuration is
    stored before any component is created. *)
Definition config_first (s : Service) : Prop :=
  is_Some (setupManager s) → is_Some (config s).

(** Replace what [GetAvailableInterfaces] returns, keeping its effect on the
    world and every other method. *)
Definition with_listing {World SetupConfigT ActiveT : Type}
    (f : World -> list string + error) (E : Env World SetupConfigT ActiveT)
    : Env World SetupConfigT ActiveT :=
  {| ParseConfig := ParseConfig E;
     ValidateConfig := ValidateConfig E;
     ValidateSetupConfig := ValidateSetupConfig E;
     GetAvailableInterfaces := fun w => (f w, (GetAvailableInterfaces E w).2);
     SetupInterfaceWithRetry := SetupInterfaceWithRetry E;
     GetInterfaceState := GetInterfaceState E;
     TeardownInterface := TeardownInterface E;
     GetSetupConfig := GetSetupConfig E;
     InitializeAll := InitializeAll E;
     Cleanup := Cleanup E;
     WatchdogStart := WatchdogStart E;
     WatchdogStop := WatchdogStop E;
     GetSystemStatus := GetSystemStatus E;
     SetupRoutes := SetupRoutes E;
     ServerShutdown := ServerShutdown E;
     AwaitSignal := AwaitSignal E;
     DurationString := DurationString E |}.

(** Replace what [GetInterfaceState] returns, keeping its effect on the
    world and every other method. *)
Definition with_states {World SetupConfigT ActiveT : Type}
    (f : string -> World -> InterfaceState + error)
    (E : Env World SetupConfigT ActiveT) : Env World SetupConfigT ActiveT :=
  {| ParseConfig := ParseConfig E;
     ValidateConfig := ValidateConfig E;
     ValidateSetupConfig := ValidateSetupConfig E;
     GetAvailableInterfaces := GetAvailableInterfaces E;
     SetupInterfaceWithRetry := SetupInterfaceWithRetry E;
     GetInterfaceState := fun ifName w =>
       (f ifName w, (GetInterfaceState E ifName w).2);
     TeardownInterface := TeardownInterface E;
     GetSetupConfig := GetSetupConfig E;
     InitializeAll := InitializeAll E;
     Cleanup := Cleanup E;
     WatchdogStart := WatchdogStart E;
     WatchdogStop := WatchdogStop E;
     GetSystemStatus := GetSystemStatus E;
     SetupRoutes := SetupRoutes E;
     ServerShutdown := ServerShutdown E;
     AwaitSignal := AwaitSignal E;
     DurationString := DurationString E |}.

(** ** A scripted environment

    The world counts the calls made so far; outcomes are read from a
    script. *)

Record Script := {
  sc_ports : list string;
  sc_bad : list string;
  sc_validate_setup : option error;
  sc_listing : option error;
  sc_initialize_all : option error;
  sc_watchdog_stop : option error;
  sc_shutdown : option error
}.

Definition scripted_result (sc : Script) (what : string) (ifName : string)
    : option error :=
  if bool_decide (ifName ∈ sc_bad sc)
  then Some (what +:+ " " +:+ ifName +:+ " failed")
  else None.

Definition scripted (sc : Script) : Env nat unit (list string) :=
  {| ParseConfig := fun w =>
       (inl {| CanPorts := sc_ports sc; Port := "5260" |}, S w);
     ValidateConfig := fun _ w => (None, S w);
     ValidateSetupConfig := fun w => (sc_validate_setup sc, S w);
     GetAvailableInterfaces := fun w =>
       (match sc_listing sc with
        | Some e => inr e
        | None => inl (sc_ports sc)
        end, S w);
     SetupInterfaceWithRetry := fun ifName w =>
       (scripted_result sc "setup" ifName, S w);
     GetInterfaceState := fun ifName w =>
       (match scripted_result sc "query" ifName with
        | Some e => inr e
        | None => inl {| Bitrate := 500000; State := "ERROR-ACTIVE"; IsUp := true |}
        end, S w);
     TeardownInterface := fun ifName w =>
       (scripted_result sc "teardown" ifName, S w);
     GetSetupConfig := fun w => (tt, S w);
     InitializeAll := fun w => (sc_initialize_all sc, S w);
     Cleanup := fun w => (tt, S w);
     WatchdogStart := fun _ w => (None, S w);
     WatchdogStop := fun w => (sc_watchdog_stop sc, S w);
     GetSystemStatus := fun w =>
       ({| SystemUptime := 90 * Second;
           ActiveInterfaces := filter (λ p, p ∉ sc_bad sc) (sc_ports sc);
           WatchdogStatus := {| Running := true |} |}, S w);
     SetupRoutes := fun w => (tt, S w);
     ServerShutdown := fun _ w => (sc_shutdown sc, S w);
     AwaitSignal := fun w => (tt, S w);
     DurationString := fun d => if decide (d = 90 * Second) then "1m30s" else "?" |}.

(** Two ports, both fine. *)
Definition all_good : Script :=
  {| sc_ports := ["can0"; "can1"]; sc_bad := [];
     sc_validate_setup := None; sc_listing := None;
     sc_initialize_all := None; sc_watchdog_stop := None;
     sc_shutdown := None |}.

(** One port, whose bring-up never succeeds. *)
Definition none_up : Script :=
  {| sc_ports := ["can0"]; sc_bad := ["can0"];
     sc_validate_setup := None; sc_listing := None;
     sc_initialize_all := Some "no interfaces initialized";
     sc_watchdog_stop := None; sc_shutdown := None |}.

(** Three ports, the middle one broken; every fallible step fails. *)
Definition middle_bad : Script :=
  {| sc_ports := ["can0"; "can1"; "can2"]; sc_bad := ["can1"];
     sc_validate_setup := None; sc_listing := Some "ip link: exit status 1";
     sc_initialize_all := Some "failed to initialize can1";
     sc_watchdog_stop := Some "watchdog not running";
     sc_shutdown := Some "context deadline exceeded" |}.

(** The setup configuration is rejected. *)
Definition bad_setup_config : Script :=
  {| sc_ports := ["can0"]; sc_bad := [];
     sc_validate_setup := Some "max retries must be positive";
     sc_listing := None; sc_initialize_all := None;
     sc_watchdog_stop := None; sc_shutdown := None |}.

(** A scripted environment whose configuration cannot be parsed, one whose
    configuration is rejected, and one whose watchdog does not start. *)
Definition unparsable (sc : Script) : Env nat unit (list string) :=
  let E := scripted sc in
  {| ParseConfig := fun w => (inr "CAN_PORTS is empty", S w);
     ValidateConfig := ValidateConfig E;
     ValidateSetupConfig := ValidateSetupConfig E;
     GetAvailableInterfaces := GetAvailableInterfaces E;
     SetupInterfaceWithRetry := SetupInterfaceWithRetry E;
     GetInterfaceState := GetInterfaceState E;
     TeardownInterface := TeardownInterface E;
     GetSetupConfig := GetSetupConfig E;
     InitializeAll := InitializeAll E;
     Cleanup := Cleanup E;
     WatchdogStart := WatchdogStart E;
     WatchdogStop := WatchdogStop E;
     GetSystemStatus := GetSystemStatus E;
     SetupRoutes := SetupRoutes E;
     ServerShutdown := ServerShutdown E;
     AwaitSignal := AwaitSignal E;
     DurationString := DurationString E |}.
Definition rejected (sc : Script) : Env nat unit (list string) :=
  let E := scripted sc in
  {| ParseConfig := ParseConfig E;
     ValidateConfig := fun _ w => (Some "invalid port", S w);
     ValidateSetupConfig := ValidateSetupConfig E;
     GetAvailableInterfaces := GetAvailableInterfaces E;
     SetupInterfaceWithRetry := SetupInterfaceWithRetry E;
     GetInterfaceState := GetInterfaceState E;
     TeardownInterface := TeardownInterface E;
     GetSetupConfig := GetSetupConfig E;
     InitializeAll := InitializeAll E;
     Cleanup := Cleanup E;
     WatchdogStart := WatchdogStart E;
     WatchdogStop := WatchdogStop E;
     GetSystemStatus := GetSystemStatus E;
     SetupRoutes := SetupRoutes E;
     ServerShutdown := ServerShutdown E;
     AwaitSignal := AwaitSignal E;
     DurationString := DurationString E |}.
Definition watchdog_down (sc : Script) : Env nat unit (list string) :=
  let E := scripted sc in
  {| ParseConfig := ParseConfig E;
     ValidateConfig := ValidateConfig E;
     ValidateSetupConfig := ValidateSetupConfig E;
     GetAvailableInterfaces := GetAvailableInterfaces E;
     SetupInterfaceWithRetry := SetupInterfaceWithRetry E;
     GetInterfaceState := GetInterfaceState E;
     TeardownInterface := TeardownInterface E;
     GetSetupConfig := GetSetupConfig E;
     InitializeAll := InitializeAll E;
     Cleanup := Cleanup E;
     WatchdogStart := fun _ w => (Some "watchdog already running", S w);
     WatchdogStop := WatchdogStop E;
     GetSystemStatus := GetSystemStatus E;
     SetupRoutes := SetupRoutes E;
     ServerShutdown := ServerShutdown E;
     AwaitSignal := AwaitSignal E;
     DurationString := DurationString E |}.

(** No port configured. *)
Definition no_ports : Script :=
  {| sc_ports := []; sc_bad := [];
     sc_validate_setup := None; sc_listing := None;
     sc_initialize_all := None; sc_watchdog_stop := None;
     sc_shutdown := None |}.

(** The configuration that [middle_bad] parses. *)
Definition three_ports : Config :=
  {| CanPorts := ["can0"; "can1"; "can2"]; Port := "5260" |}.

(** The service state reached by [Initialize] under a script. *)
Definition started (sc : Script) : Service :=
  svc (Initialize (scripted sc) NewService 0%nat).
Definition started_world (sc : Script) : nat :=
  world (Initialize (scripted sc) NewService 0%nat).

(** * Properties *)

Section Proofs.

Context {World SetupConfigT ActiveT : Type}.
Implicit Types (E : Env World SetupConfigT ActiveT) (s : Service) (w : World).
Implicit Types (tr pre post : list (Event SetupConfigT ActiveT)).

(** ** Running the primitives *)

Lemma res_prepend {A} tr (o : Out World SetupConfigT ActiveT A) :
  res (prepend tr o) = res o.
Proof. by destruct o. Qed.

Lemma svc_prepend {A} tr (o : Out World SetupConfigT ActiveT A) :
  svc (prepend tr o) = svc o.
Proof. by destruct o. Qed.

Lemma world_prepend {A} tr (o : Out World SetupConfigT ActiveT A) :
  world (prepend tr o) = world o.
Proof. by destruct o. Qed.

Lemma trace_prepend {A} tr (o : Out World SetupConfigT ActiveT A) :
  trace (prepend tr o) = tr ++ trace o.
Proof. by destruct o. Qed.

Lemma prepend_nil {A} (o : Out World SetupConfigT ActiveT A) :
  prepend [] o = o.
Proof. by destruct o. Qed.

Lemma bind_ret {A B} (a : A) (k : A → M World SetupConfigT ActiveT B) s w :
  bind (ret a) k s w = k a s w.
Proof. unfold bind, ret. apply prepend_nil. Qed.

Lemma bind_emit {B} ev (k : unit → M World SetupConfigT ActiveT B) s w :
  bind (emit ev) k s w = prepend [ev] (k tt s w).
Proof. reflexivity. Qed.

Lemma bind_get_svc {B} (k : Service → M World SetupConfigT ActiveT B) s w :
  bind get_svc k s w = k s s w.
Proof. unfold bind, get_svc. apply prepend_nil. Qed.

Lemma bind_modify_svc {B} f (k : unit → M World SetupConfigT ActiveT B) s w :
  bind (modify_svc f) k s w = k tt (f s) w.
Proof. unfold bind, modify_svc. apply prepend_nil. Qed.

Lemma bind_call {A B} (op : World → A * World) ev
    (k : A → M World SetupConfigT ActiveT B) s w :
  bind (call op ev) k s w = prepend [ev (op w).1] (k (op w).1 s (op w).2).
Proof. unfold bind, call. by destruct (op w). Qed.

Lemma call_run {A} (op : World → A * World)
    (ev : A → Event SetupConfigT ActiveT) s w :
  call op ev s w
  = {| res := Ok (op w).1; svc := s; world := (op w).2; trace := [ev (op w).1] |}.
Proof. unfold call. by destruct (op w). Qed.

Lemma bind_deref {A B} (field : Service → option A)
    (k : A → M World SetupConfigT ActiveT B) s w a :
  field s = Some a → bind (deref field) k s w = k a s w.
Proof. intros Hf. unfold bind, deref. rewrite Hf. apply prepend_nil. Qed.

Lemma via_run {A B} (field : Service → option A)
    (m : M World SetupConfigT ActiveT B) s w a :
  field s = Some a → via field m s w = m s w.
Proof. intros Hf. unfold via. by rewrite (bind_deref _ _ _ _ _ Hf). Qed.

Lemma bind_via {A B C} (field : Service → option A)
    (m : M World SetupConfigT ActiveT B)
    (k : B → M World SetupConfigT ActiveT C) s w a :
  field s = Some a → bind (via field m) k s w = bind m k s w.
Proof. intros Hf. unfold bind at 1. by rewrite (via_run _ _ _ _ _ Hf). Qed.

Lemma Printf_run format args s w l :
  logger s = Some l →
  Printf (World:=World) (SetupConfigT:=SetupConfigT) (ActiveT:=ActiveT)
    format args s w
  = {| res := Ok tt; svc := s; world := w; trace := [EvPrintf format args] |}.
Proof. intros Hl. unfold Printf. by rewrite (bind_deref _ _ _ _ _ Hl). Qed.

Lemma bind_Printf {B} format args
    (k : unit → M World SetupConfigT ActiveT B) s w l :
  logger s = Some l →
  bind (Printf format args) k s w = prepend [EvPrintf format args] (k tt s w).
Proof. intros Hl. unfold bind at 1. by rewrite (Printf_run _ _ _ _ _ Hl). Qed.

Lemma prepend_prepend {A} tr tr' (o : Out World SetupConfigT ActiveT A) :
  prepend tr (prepend tr' o) = prepend (tr ++ tr') o.
Proof. destruct o. cbn. by rewrite app_assoc. Qed.

Lemma bind_assoc {A B C} (m : M World SetupConfigT ActiveT A)
    (k1 : A → M World SetupConfigT ActiveT B)
    (k2 : B → M World SetupConfigT ActiveT C) s w :
  bind (bind m k1) k2 s w = bind m (λ a, bind (k1 a) k2) s w.
Proof.
  unfold bind. destruct (m s w) as [[a|] s1 w1 t1]; [|done].
  destruct (k1 a s1 w1) as [[b|] s2 w2 t2]; [|done]. cbn.
  destruct (k2 b s2 w2) as [r s3 w3 t3]. cbn. by rewrite app_assoc.
Qed.

Lemma bind_Ok {A B} (m : M World SetupConfigT ActiveT A)
    (k : A → M World SetupConfigT ActiveT B) s w a :
  res (m s w) = Ok a →
  bind m k s w = prepend (trace (m s w)) (k a (svc (m s w)) (world (m s w))).
Proof.
  unfold bind. destruct (m s w) as [r s' w' t]. cbn. by intros ->.
Qed.

Lemma bind_ext {A B} (m : M World SetupConfigT ActiveT A)
    (k k' : A → M World SetupConfigT ActiveT B) s w :
  (∀ a s' w', k a s' w' = k' a s' w') → bind m k s w = bind m k' s w.
Proof.
  intros Hk. unfold bind. destruct (m s w) as [[a|] s' w' t]; [|done].
  by rewrite Hk.
Qed.

(** One step of symbolic execution. *)
Ltac field_is_set := cbn; first [reflexivity | eassumption].
Ltac shell_step :=
  first
    [ rewrite bind_assoc
    | rewrite bind_ret
    | rewrite bind_emit
    | rewrite bind_get_svc
    | rewrite bind_modify_svc
    | rewrite bind_call
    | erewrite bind_Printf by field_is_set
    | erewrite bind_via by field_is_set
    | erewrite bind_deref by field_is_set
    | erewrite Printf_run by field_is_set
    | erewrite via_run by field_is_set
    | rewrite call_run
    | rewrite prepend_prepend ];
  cbn beta iota.
Ltac shell_run := repeat shell_step.
Ltac shell_out :=
  rewrite ?res_prepend, ?svc_prepend, ?world_prepend, ?trace_prepend.

(** ** The bring-up loop *)

Lemma setup_loop_run E ports : ∀ setupErrors successCount s w,
  is_Some (logger s) → is_Some (setupManager s) →
  let out := setup_loop E ports setupErrors successCount s w in
  svc out = s ∧
  setup_attempts (trace out) = ports ∧
  res out = Ok (setupErrors ++ failure_messages (setup_outcomes (trace out)),
                Nat.iter (successes (setup_outcomes (trace out)))
                  int_incr successCount).
Proof.
  induction ports as [|ifName rest IH]; intros errs cnt s w Hl Hm.
  - cbn. rewrite app_nil_r. done.
  - pose proof Hl as Hl'. pose proof Hm as Hm'.
    destruct Hl as [l Hl], Hm as [m Hm].
    cbn [setup_loop]. shell_run.
    destruct (SetupInterfaceWithRetry E ifName w) as [[err|] w1]; cbn [fst snd].
    + shell_run. shell_out. cbn [app].
      destruct (IH (errs ++ [ifName +:+ ": " +:+ err]) cnt s w1 Hl' Hm')
        as (Hs & Ha & Hr).
      rewrite Hs, Hr. unfold setup_attempts, setup_outcomes in *.
      cbn. rewrite Ha, <- app_assoc. done.
    + shell_run.
      destruct (GetInterfaceState E ifName w1) as [[state|qerr] w2];
        cbn [fst snd]; shell_run; shell_out; cbn [app];
        destruct (IH errs (int_incr cnt) s w2 Hl' Hm') as (Hs & Ha & Hr);
        rewrite Hs, Hr; unfold setup_attempts, setup_outcomes in *;
        cbn; rewrite Ha; unfold successes; cbn;
        by rewrite <- Nat.iter_succ_r.
Qed.

Lemma setup_loop_phase E ports : ∀ setupErrors successCount s w,
  is_Some (logger s) → is_Some (setupManager s) →
  Forall (λ ev, loop_event ev = true)
    (trace (setup_loop E ports setupErrors successCount s w)).
Proof.
  induction ports as [|ifName rest IH]; intros errs cnt s w Hl Hm.
  - constructor.
  - pose proof Hl as [l Hl']. pose proof Hm as [m Hm'].
    cbn [setup_loop]. shell_run.
    destruct (SetupInterfaceWithRetry E ifName w) as [[err|] w1]; cbn [fst snd].
    + shell_run. shell_out. cbn [app]. repeat constructor. by apply IH.
    + shell_run.
      destruct (GetInterfaceState E ifName w1) as [[state|qerr] w2];
        cbn [fst snd]; shell_run; shell_out; cbn [app];
        repeat constructor; by apply IH.
Qed.

Lemma setup_loop_with_listing E f ports : ∀ setupErrors successCount s w,
  setup_loop (with_listing f E) ports setupErrors successCount s w
  = setup_loop E ports setupErrors successCount s w.
Proof.
  induction ports as [|ifName rest IH]; intros errs cnt s w; [done|].
  cbn [setup_loop with_listing SetupInterfaceWithRetry GetInterfaceState].
  apply bind_ext; intros _ s1 w1.
  apply bind_ext; intros [err|] s2 w2.
  - apply bind_ext; intros _ s3 w3. apply IH.
  - apply bind_ext; intros _ s3 w3.
    apply bind_ext; intros st s4 w4.
    apply bind_ext; intros _ s5 w5. apply IH.
Qed.

(** What [setupCanInterfaces] does on a service whose logger, setup manager
    and configuration are set. *)
Lemma setupCanInterfaces_run E s w cfg :
  is_Some (logger s) → is_Some (setupManager s) → config s = Some cfg →
  let out := setupCanInterfaces E s w in
  let listing := (GetAvailableInterfaces E w).1 in
  let looped :=
    trace (setup_loop E (CanPorts cfg) [] 0 s (GetAvailableInterfaces E w).2) in
  ∃ final,
    trace out
    = [EvPrintf "🔧 Setting up CAN interfaces..." [];
       EvGetAvailableInterfaces listing; listing_log listing]
      ++ looped ++ final ∧
    Forall (λ ev, is_printf ev = true) final ∧
    svc out = s ∧
    res out = Ok (setup_verdict (failure_messages (setup_outcomes looped))
                    (Nat.iter (successes (setup_outcomes looped)) int_incr 0)).
Proof.
  intros Hl Hm Hc out listing looped. subst out listing looped.
  pose proof Hl as [l Hl']. pose proof Hm as [m Hm'].
  unfold setupCanInterfaces. shell_run.
  destruct (GetAvailableInterfaces E w) as [listing w1]. cbn [fst snd].
  destruct (setup_loop_run E (CanPorts cfg) [] 0 s w1 Hl Hm) as (Hs & Ha & Hr).
  cbn [app] in Hr.
  set (looped := trace (setup_loop E (CanPorts cfg) [] 0 s w1)) in *.
  destruct listing as [available|lerr]; cbn [listing_log]; shell_run;
    rewrite (bind_Ok _ _ _ _ _ Hr), Hs; cbn beta iota; fold looped;
    unfold setup_verdict; repeat case_decide; shell_run; shell_out;
    cbv [ret]; cbn [trace res svc app].
  all: first
    [ solve [ exists []; rewrite app_nil_r; repeat case_decide;
              repeat split; done ]
    | solve [ eexists [_]; rewrite <- ?app_assoc; repeat case_decide;
              repeat split; try done; repeat constructor; eauto ] ].
Qed.

Lemma omap_printf {B} (f : Event SetupConfigT ActiveT → option B) tr :
  (∀ format args, f (EvPrintf format args) = None) →
  Forall (λ ev, is_printf ev = true) tr → omap f tr = [].
Proof.
  intros Hf. induction 1 as [|ev tr Hev _ IH]; [done|].
  destruct ev; try discriminate. cbn. by rewrite Hf.
Qed.

(** The bring-up phase as a whole. *)
Lemma setupCanInterfaces_summary E s w cfg :
  is_Some (logger s) → is_Some (setupManager s) → config s = Some cfg →
  let out := setupCanInterfaces E s w in
  Forall (λ ev, setup_phase ev = true) (trace out) ∧
  setup_attempts (trace out) = CanPorts cfg ∧
  svc out = s ∧
  res out = Ok (setup_verdict (failure_messages (setup_outcomes (trace out)))
                  (Nat.iter (successes (setup_outcomes (trace out)))
                     int_incr 0)).
Proof.
  intros Hl Hm Hc out.
  destruct (setupCanInterfaces_run E s w cfg Hl Hm Hc)
    as (final & Ht & Hf & Hs & Hr).
  destruct (setup_loop_run E (CanPorts cfg) [] 0 s
              (GetAvailableInterfaces E w).2 Hl Hm) as (_ & Ha & _).
  pose proof (setup_loop_phase E (CanPorts cfg) [] 0 s
                (GetAvailableInterfaces E w).2 Hl Hm) as Hp.
  subst out. rewrite Ht, Hs, Hr. clear Ht Hs Hr.
  set (looped := trace (setup_loop _ _ _ _ _ _)) in *.
  assert (∀ B (f : Event SetupConfigT ActiveT → option B),
            (∀ format args, f (EvPrintf format args) = None) →
            f (EvGetAvailableInterfaces (GetAvailableInterfaces E w).1) = None →
            omap f ([EvPrintf "🔧 Setting up CAN interfaces..." [];
                     EvGetAvailableInterfaces (GetAvailableInterfaces E w).1;
                     listing_log (GetAvailableInterfaces E w).1]
                    ++ looped ++ final) = omap f looped) as Hom.
  { intros B f Hpf Hga. rewrite !omap_app, (omap_printf f final Hpf Hf).
    rewrite app_nil_r. cbn. rewrite Hpf, Hga.
    by destruct (GetAvailableInterfaces E w).1; cbn; rewrite Hpf. }
  unfold setup_attempts, setup_outcomes in *.
  rewrite !Hom by done. repeat split; try done.
  rewrite !Forall_app. repeat split.
  - repeat constructor. by destruct (GetAvailableInterfaces E w).1.
  - eapply Forall_impl; [exact Hp|]. intros ev Hev. by destruct ev.
  - eapply Forall_impl; [exact Hf|]. intros ev Hev. by destruct ev.
Qed.

Lemma setupCanInterfaces_outcomes E s w cfg :
  is_Some (logger s) → is_Some (setupManager s) → config s = Some cfg →
  setup_outcomes (trace (setupCanInterfaces E s w))
  = setup_outcomes
      (trace (setup_loop E (CanPorts cfg) [] 0 s (GetAvailableInterfaces E w).2)).
Proof.
  intros Hl Hm Hc.
  destruct (setupCanInterfaces_run E s w cfg Hl Hm Hc)
    as (final & Ht & Hf & _).
  rewrite Ht. unfold setup_outcomes.
  rewrite !omap_app, (omap_printf _ final) by done.
  rewrite app_nil_r. by destruct (GetAvailableInterfaces E w).1.
Qed.

(** ** [Initialize], case by case *)

Ltac shell_call :=
  match goal with
  | |- context [fst (?op ?w)] =>
      let r := fresh "r" in let w' := fresh "w" in
      destruct (op w) as [r w']; cbn [fst snd]
  end.

Lemma Initialize_cases E s w :
  is_Some (logger s) →
  let out := Initialize E s w in
  (∃ e, trace out = [EvParseConfig (inr e)] ∧
        res out = Ok (Some (Errorf_wrap "failed to parse configuration" e)) ∧
        svc out = s) ∨
  (∃ c e, trace out = [EvParseConfig (inl c); EvValidateConfig c (Some e)] ∧
        res out = Ok (Some (Errorf_wrap "configuration validation failed" e)) ∧
        svc out = s) ∨
  (∃ c e, trace out = [EvParseConfig (inl c); EvValidateConfig c None]
                      ++ config_banner c ++ [EvValidateSetupConfig (Some e)] ∧
        res out = Ok (Some (Errorf_wrap "failed to initialize components"
                      (Errorf_wrap "setup configuration validation failed" e))) ∧
        svc out = set_setupManager (Some NewInterfaceSetupManager)
                    (set_configProvider (Some (NewDefaultConfigProvider c))
                       (set_config (Some c) s))) ∨
  (∃ c w1 verdict ia,
        let setup := setupCanInterfaces E (with_components c s) w1 in
        res setup = Ok verdict ∧
        trace out = [EvParseConfig (inl c); EvValidateConfig c None]
                    ++ config_banner c ++ [EvValidateSetupConfig None]
                    ++ trace setup ++ setup_warning verdict
                    ++ [EvInitializeAll ia] ++ initialize_all_warning ia
                    ++ [EvSetupRoutes;
                        EvPrintf "🌐 CAN Communication Service will run at http://localhost%s"
                          [AStr (":" +:+ Port c)]] ∧
        res out = Ok None ∧
        svc out = set_server (Some (server_for c)) (with_components c s)).
Proof.
  intros Hl out. subst out. pose proof Hl as [l Hl'].
  unfold Initialize. shell_run. shell_call.
  destruct r as [c|e]; [|left; exists e; by cbv [ret]].
  shell_run. shell_call.
  destruct r as [e|]; [right; left; exists c, e; by cbv [ret]|].
  shell_run. unfold initializeComponents. shell_run. shell_call.
  destruct r as [e|].
  { right; right; left. exists c, e. shell_run. by cbv [ret]. }
  right; right; right. shell_run.
  change (set_apiHandler _ _) with (with_components c s).
  destruct (setupCanInterfaces_summary E (with_components c s) w2 c)
    as (_ & _ & Hs & Hr); [done..|].
  rewrite (bind_Ok _ _ _ _ _ Hr), Hs. cbn beta iota.
  unfold setupHTTPServer.
  destruct (setup_verdict _ _) as [serr|]; shell_run; shell_call;
    destruct r as [aerr|]; shell_run;
    exists c, w2; eexists;
    match goal with |- context [EvInitializeAll ?x] => exists x end;
    cbn zeta; rewrite Hr;
    shell_out; cbv [ret]; cbn [trace res svc app];
    (split; [done|]); rewrite <- ?app_assoc; cbn [app];
    rewrite ?app_nil_r; done.
Qed.

Lemma successes_all_failed (l : list (string * option error)) :
  Forall (λ o, is_Some o.2) l → successes l = 0%nat.
Proof.
  unfold successes. induction 1 as [|o l [e He] _ IH]; [done|].
  rewrite filter_cons_False; [done|]. by rewrite He.
Qed.

(** Where an element sits when a list is cut in two ways. *)
Lemma cut_after {A} (l1 l2 pre post : list A) x v :
  pre ++ x :: post = l1 ++ v :: l2 → x ∉ l1 → x ≠ v → v ∈ pre.
Proof.
  revert pre. induction l1 as [|a l1 IH]; intros [|b pre] Heq Hx Hv;
    simplify_eq/=; try set_solver.
Qed.

Lemma cut_unique {A} (a b l1 l2 : list A) x :
  l1 ++ x :: l2 = a ++ x :: b → x ∉ a → x ∉ b → l1 = a ∧ l2 = b.
Proof.
  revert l1. induction a as [|a0 a IH]; intros [|y l1] Heq Ha Hb;
    simplify_eq/=; try set_solver.
Qed.

(** ** Claims about [Initialize] *)

Ltac Initialize_split E s w Hl :=
  let e := fresh "e" in let c := fresh "c" in let w1 := fresh "w1" in
  let verdict := fresh "verdict" in let ia := fresh "ia" in
  let Ht := fresh "Ht" in let Hr := fresh "Hr" in let Hs := fresh "Hs" in
  let Hsetup := fresh "Hsetup" in
  destruct (Initialize_cases E s w Hl)
    as [(e & Ht & Hr & Hs)
       |[(c & e & Ht & Hr & Hs)
        |[(c & e & Ht & Hr & Hs)
         |(c & w1 & verdict & ia & Hsetup & Ht & Hr & Hs)]]];
  cbn zeta in *; unfold config_banner in *.

(** Case analysis on the membership of an event in a trace. *)
Ltac sift Hin :=
  set_unfold in Hin; destruct_or!; try discriminate; try done;
  try match goal with
      | Hp : (∀ x, x ∈ ?t → _), H : _ ∈ ?t |- _ =>
          apply Hp in H; discriminate
      | H : _ ∈ setup_warning ?v |- _ =>
          destruct v; cbn in H; set_solver
      | H : _ ∈ initialize_all_warning ?v |- _ =>
          destruct v; cbn in H; set_solver
      end.

(** C7: an error from [InitializeAll] is logged and [Initialize] still
    registers the routes, stores the HTTP server and returns nil. *)
Theorem InitializeAll_error_not_fatal E s w err :
  is_Some (logger s) →
  let out := Initialize E s w in
  EvInitializeAll (Some err) ∈ trace out →
  res out = Ok None ∧
  EvPrintf "Warning: %v" [AErr err] ∈ trace out ∧
  EvSetupRoutes ∈ trace out ∧
  is_Some (server (svc out)).
Proof.
  intros Hl out Hin. subst out. Initialize_split E s w Hl;
    rewrite Ht in Hin |- *; rewrite Hr, Hs; clear Ht Hr Hs.
  1-3: set_solver.
  destruct (setupCanInterfaces_summary E (with_components c s) w1 c)
    as (Hp & _); [done..|].
  rewrite Forall_forall in Hp.
  assert (ia = Some err) as ->.
  { sift Hin. congruence. }
  cbn. repeat split; [set_solver..|by eexists].
Qed.

(** C5: [ValidateSetupConfig] comes before every operation on an interface,
    and when it fails [Initialize] returns an error with no interface
    touched. *)
Theorem ValidateSetupConfig_before_interfaces E s w :
  is_Some (logger s) →
  let out := Initialize E s w in
  (∀ pre ev post,
     trace out = pre ++ ev :: post → interface_op ev = true →
     ∃ r, EvValidateSetupConfig r ∈ pre) ∧
  (∀ err,
     EvValidateSetupConfig (Some err) ∈ trace out →
     (∃ e, res out = Ok (Some e)) ∧
     Forall (λ ev, interface_op ev = false) (trace out)).
Proof.
  intros Hl out. subst out. split.
  - intros pre ev post Hcut Hop.
    assert (ev ∈ trace (Initialize E s w)) as Hin by (rewrite Hcut; set_solver).
    Initialize_split E s w Hl; rewrite Ht in Hin, Hcut; clear Ht Hr Hs.
    1-3: sift Hin; by subst.
    exists None. cbn [app] in Hcut. symmetry in Hcut.
    eapply (cut_after [_; _; _; _; _; _]); [exact Hcut| |].
    + intros Hin'. sift Hin'; by subst.
    + intros ->. discriminate.
  - intros err Hin.
    Initialize_split E s w Hl; rewrite Ht in Hin |- *; rewrite Hr;
      clear Ht Hr Hs.
    1-2: sift Hin.
    + split; [by eexists|]. cbn. repeat constructor.
    + destruct (setupCanInterfaces_summary E (with_components c s) w1 c)
        as (Hp & _); [done..|].
      rewrite Forall_forall in Hp. sift Hin.
Qed.

(** C6: the bring-up loop calls [SetupInterfaceWithRetry] once per entry
    of [CanPorts], in order, whatever the individual outcomes. *)
Theorem setup_attempts_every_port E s w cfg :
  is_Some (logger s) → is_Some (setupManager s) → config s = Some cfg →
  let out := setupCanInterfaces E s w in
  setup_attempts (trace out) = CanPorts cfg ∧
  ∀ pre ifName err post,
    trace out = pre ++ EvSetupInterfaceWithRetry ifName (Some err) :: post →
    CanPorts cfg = setup_attempts pre ++ ifName :: setup_attempts post.
Proof.
  intros Hl Hm Hc out.
  destruct (setupCanInterfaces_summary E s w cfg Hl Hm Hc) as (_ & Ha & _).
  split; [done|]. intros pre ifName err post Hcut. fold out in Ha.
  rewrite <- Ha, Hcut. unfold setup_attempts. by rewrite omap_app.
Qed.

(** Once the configuration is accepted, [Initialize] returns nil whatever
    the bring-up outcomes; when every bring-up failed, the error of
    [setupCanInterfaces] is only logged as a warning. *)
Lemma Initialize_accepts_bring_up_failures E s w :
  is_Some (logger s) →
  let out := Initialize E s w in
  EvValidateSetupConfig None ∈ trace out →
  res out = Ok None ∧
  (Forall (λ o, is_Some o.2) (setup_outcomes (trace out)) →
   EvPrintf "Warning: CAN interface setup issues: %v"
     [AErr (Errorf_list "failed to setup any CAN interfaces"
              (failure_messages (setup_outcomes (trace out))))]
   ∈ trace out).
Proof.
  intros Hl out Hin. subst out.
  Initialize_split E s w Hl; rewrite Ht in Hin; try (sift Hin; fail).
  clear Hin. split; [done|].
  destruct (setupCanInterfaces_summary E (with_components c s) w1 c)
    as (_ & _ & _ & Hv); [done..|].
  rewrite Hsetup in Hv. injection Hv as ->.
  assert (setup_outcomes (trace (Initialize E s w))
          = setup_outcomes (trace (setupCanInterfaces E (with_components c s) w1)))
    as Ho.
  { rewrite Ht. unfold setup_outcomes. rewrite !omap_app. cbn.
    rewrite app_nil_r.
    by destruct (setup_verdict _ _), ia; cbn; rewrite ?app_nil_r. }
  rewrite Ho. intros Hall. rewrite Ht.
  rewrite (successes_all_failed _ Hall). cbn [Nat.iter].
  unfold setup_verdict. rewrite decide_True by done.
  cbn [setup_warning]. set_solver.
Qed.

(** C8: a failure of [GetAvailableInterfaces] is logged, every configured
    interface is still brought up, and what [setupCanInterfaces] returns is
    the same whatever the listing returned. *)
Theorem listing_failure_not_fatal E s w cfg :
  is_Some (logger s) → is_Some (setupManager s) → config s = Some cfg →
  let out := setupCanInterfaces E s w in
  (∀ err,
     EvGetAvailableInterfaces (inr err) ∈ trace out →
     EvPrintf "⚠️ Warning: could not list available interfaces: %v" [AErr err]
       ∈ trace out ∧
     setup_attempts (trace out) = CanPorts cfg) ∧
  (∀ f,
     let out' := setupCanInterfaces (with_listing f E) s w in
     res out' = res out ∧
     setup_outcomes (trace out') = setup_outcomes (trace out)).
Proof.
  intros Hl Hm Hc out. subst out. split.
  - intros err Hin.
    destruct (setupCanInterfaces_summary E s w cfg Hl Hm Hc) as (_ & Ha & _).
    split; [|done].
    destruct (setupCanInterfaces_run E s w cfg Hl Hm Hc)
      as (final & Ht & Hf & _).
    pose proof (setup_loop_phase E (CanPorts cfg) [] 0 s
                  (GetAvailableInterfaces E w).2 Hl Hm) as Hp.
    rewrite Forall_forall in Hp, Hf.
    rewrite Ht in Hin |- *. clear Ht.
    set_unfold in Hin. destruct Hin as [|[Hin|[Hin|[Hin|Hin]]]]; [done| | | |].
    + injection Hin as <-. cbn. set_solver.
    + destruct (GetAvailableInterfaces E w).1; discriminate.
    + apply Hp in Hin. discriminate.
    + apply Hf in Hin. discriminate.
  - intros f out'. subst out'.
    assert (setup_outcomes (trace (setupCanInterfaces (with_listing f E) s w))
            = setup_outcomes (trace (setupCanInterfaces E s w))) as Ho.
    { rewrite !(setupCanInterfaces_outcomes _ s w cfg) by done.
      by rewrite setup_loop_with_listing. }
    split; [|done].
    destruct (setupCanInterfaces_summary E s w cfg Hl Hm Hc)
      as (_ & _ & _ & ->).
    destruct (setupCanInterfaces_summary (with_listing f E) s w cfg Hl Hm Hc)
      as (_ & _ & _ & ->).
    by rewrite Ho.
Qed.

(** ** Shutdown *)

Lemma teardown_loop_run E ports : ∀ s w,
  is_Some (logger s) → is_Some (setupManager s) →
  let out := teardown_loop E ports s w in
  res out = Ok tt ∧ svc out = s ∧
  teardown_attempts (trace out) = ports ∧
  steps (trace out) = StepTeardown <$> ports.
Proof.
  induction ports as [|ifName rest IH]; intros s w Hl Hm; [done|].
  pose proof Hl as [l Hl']. pose proof Hm as [m Hm'].
  cbn [teardown_loop]. shell_run. shell_call.
  destruct (IH s w0 Hl Hm) as (Hr & Hs & Ha & Hst).
  destruct r as [err|]; shell_run; shell_out; rewrite Hr, Hs;
    unfold teardown_attempts, steps in *; cbn; by rewrite Ha, Hst.
Qed.

Lemma teardownCanInterfaces_run E s w cfg :
  is_Some (logger s) → is_Some (setupManager s) → config s = Some cfg →
  let out := teardownCanInterfaces E s w in
  res out = Ok tt ∧ svc out = s ∧
  teardown_attempts (trace out) = CanPorts cfg ∧
  steps (trace out) = StepTeardown <$> CanPorts cfg.
Proof.
  intros Hl Hm Hc out. subst out.
  pose proof Hl as [l Hl']. pose proof Hm as [m Hm'].
  destruct (teardown_loop_run E (CanPorts cfg) s w Hl Hm) as (Hr & Hs & Ha & Hst).
  unfold teardownCanInterfaces. shell_run.
  rewrite (bind_Ok _ _ _ _ _ Hr), Hs. cbn beta iota. shell_run. shell_out.
  unfold teardown_attempts, steps in *. cbn [trace res svc].
  rewrite !omap_app. cbn. rewrite Ha, Hst, !app_nil_r. done.
Qed.

(** The steps that [Stop] goes through on an initialized service. *)
Lemma Stop_run E ctx s w cfg :
  initialized s → config s = Some cfg →
  let out := Stop E ctx s w in
  res out = Ok None ∧ svc out = s ∧
  steps (trace out)
  = [StepWatchdogStop; StepShutdown ctx; StepCleanup]
    ++ (StepTeardown <$> CanPorts cfg).
Proof.
  intros (_ & Hm & [im Him] & [wd Hwd] & _ & _ & [srv Hsrv] & Hl) Hc out.
  subst out. pose proof Hl as [l Hl']. pose proof Hm as [m Hm'].
  unfold Stop. shell_run. shell_call.
  destruct r as [werr|]; shell_run; rewrite Hsrv; cbn beta iota; shell_run;
    shell_call; destruct r as [herr|]; shell_run; rewrite Him; cbn beta iota;
    shell_run; rewrite Hm'; cbn beta iota.
  all: match goal with
       | |- context [bind (teardownCanInterfaces _) _ _ ?w'] =>
           destruct (teardownCanInterfaces_run E s w' cfg Hl Hm Hc)
             as (Hr & Hs & _ & Hst)
       end.
  all: rewrite (bind_Ok _ _ _ _ _ Hr), Hs; cbn beta iota; shell_run; shell_out.
  all: cbv [ret]; cbn [trace res svc]; unfold steps in *; rewrite !omap_app.
  all: cbn; rewrite Hst, !app_nil_r; done.
Qed.


(** C3: an error from any step of [Stop] leaves every later step in the
    trace, and [Stop] returns nil. *)
Theorem Stop_fault_tolerant E ctx s w cfg :
  initialized s → config s = Some cfg →
  let out := Stop E ctx s w in
  res out = Ok None ∧
  ∀ pre ev post,
    trace out = pre ++ ev :: post →
    match ev with
    | EvWatchdogStop (Some _) =>
        steps post = [StepShutdown ctx; StepCleanup]
                     ++ (StepTeardown <$> CanPorts cfg)
    | EvShutdown _ (Some _) =>
        steps post = [StepCleanup] ++ (StepTeardown <$> CanPorts cfg)
    | EvTeardownInterface ifName (Some _) =>
        ∃ before after,
          CanPorts cfg = before ++ ifName :: after ∧
          steps post = StepTeardown <$> after
    | _ => True
    end.
Proof.
  intros Hi Hc out.
  destruct (Stop_run E ctx s w cfg Hi Hc) as (Hr & _ & Hst).
  split; [done|]. fold out in Hst. intros pre ev post Hcut.
  rewrite Hcut in Hst. unfold steps in Hst. rewrite omap_app in Hst.
  fold (steps pre) in Hst. cbn in Hst. fold (steps post) in Hst.
  assert (∀ st, st ∈ StepTeardown <$> CanPorts cfg → ∃ n, st = StepTeardown n)
    as Htd.
  { intros st (n & -> & _)%list_elem_of_fmap. by exists n. }
  destruct ev as [| | | | | | |ifName [err|]| | | | |[err|]| | |ctx' [err|]| | | | |];
    try done; cbn in Hst.
  - destruct (steps pre) as [|a [|b [|d l]]]; simplify_eq/=.
    symmetry in H0. apply fmap_app_inv in H0 as (before & rest & -> & Hrest & ->).
    symmetry in Hrest. apply fmap_cons_inv in Hrest as (n & after & ? & -> & ->).
    simplify_eq. by exists before, after.
  - destruct (cut_unique [] _ (steps pre) (steps post) StepWatchdogStop Hst)
      as [_ ->]; [set_solver| |done].
    intros Hin. set_unfold in Hin. destruct Hin as [|[|Hin]]; try done.
    destruct Hin as (n & ? & _). done.
  - assert (ctx' = ctx) as ->.
    { assert (StepShutdown ctx' ∈ steps pre ++ StepShutdown ctx' :: steps post)
        as Hin by set_solver.
      rewrite Hst in Hin. set_unfold in Hin.
      destruct Hin as [|[|[|Hin]]]; try done; [congruence|].
      destruct Hin as (n & ? & _). done. }
    destruct (cut_unique [StepWatchdogStop] _ (steps pre) (steps post)
                (StepShutdown ctx) Hst) as [_ ->]; [set_solver| |done].
    intros Hin. set_unfold in Hin. destruct Hin as [|Hin]; try done.
    destruct Hin as (n & ? & _). done.
Qed.

(** C4: the teardown loop calls [TeardownInterface] for every entry of
    [CanPorts], in order, whatever the individual outcomes. *)
Theorem teardown_attempts_every_port E s w cfg :
  is_Some (logger s) → is_Some (setupManager s) → config s = Some cfg →
  let out := teardownCanInterfaces E s w in
  res out = Ok tt ∧
  teardown_attempts (trace out) = CanPorts cfg ∧
  ∀ pre ifName err post,
    trace out = pre ++ EvTeardownInterface ifName (Some err) :: post →
    CanPorts cfg = teardown_attempts pre ++ ifName :: teardown_attempts post.
Proof.
  intros Hl Hm Hc out.
  destruct (teardownCanInterfaces_run E s w cfg Hl Hm Hc) as (Hr & _ & Ha & _).
  repeat split; [done..|]. intros pre ifName err post Hcut. fold out in Ha.
  rewrite <- Ha, Hcut. unfold teardown_attempts. by rewrite omap_app.
Qed.

(** ** Status *)

Lemma states_loop_run E ports : ∀ (m : gmap string (Value SetupConfigT ActiveT)) s w,
  let out := states_loop E ports m s w in
  ∃ m', res out = Ok m' ∧ svc out = s ∧
    (∀ name, m' !! name
             = match last_state_query name (trace out) with
               | Some r => Some (state_entry r)
               | None => m !! name
               end) ∧
    (∀ name, name ∈ ports → is_Some (last_state_query name (trace out))).
Proof.
  induction ports as [|ifName rest IH]; intros m s w.
  - exists m. split_and!; [done..|by intros name ?%elem_of_nil].
  - cbn [states_loop]. shell_run. shell_call.
    set (m1 := match r with
               | inl state => <[ifName := VState state]> m
               | inr err => <[ifName := VMap {["error" := VString err]}]> m
               end).
    destruct (IH m1 s w0) as (m' & Hr & Hs & Hq & Hd).
    exists m'.
    assert (prepend [EvGetInterfaceState ifName r]
              (match r with
               | inl state =>
                   states_loop E rest (<[ifName := VState state]> m)
               | inr err =>
                   states_loop E rest
                     (<[ifName := VMap {["error" := VString err]}]> m)
               end s w0)
            = prepend [EvGetInterfaceState ifName r] (states_loop E rest m1 s w0))
      as -> by (by destruct r).
    shell_out. cbn [app last_state_query]. split_and!; [done..| |].
    + intros name. rewrite Hq.
      destruct (last_state_query name _) as [r'|]; [done|].
      subst m1. case_decide as Hn.
      * subst. destruct r; cbn; by rewrite lookup_insert_eq.
      * destruct r; cbn; by rewrite lookup_insert_ne.
    + intros name [->|Hin]%elem_of_cons.
      * destruct (last_state_query _ _); [by eexists|].
        rewrite decide_True by done. by eexists.
      * destruct (Hd name Hin) as [r' ->]. by eexists.
Qed.

(** C10: [GetStatus] on a service without monitor answers
    [{"status": "not_initialized"}] and touches nothing; otherwise it returns
    a map, and the outcome of each state query, error or not, is stored
    under the interface's name. *)
Theorem GetStatus_always_answers E s w :
  let out := GetStatus E s w in
  (monitor s = None →
   out = {| res := Ok ({["status" := VString "not_initialized"]}
                       : gmap string (Value SetupConfigT ActiveT));
            svc := s; world := w; trace := [] |}) ∧
  (is_Some (monitor s) → config_first s →
   ∃ m setup,
     res out = Ok m ∧ svc out = s ∧
     m !! "status" = Some (VString "running") ∧
     m !! "setup" = Some (VMap setup) ∧
     (setupManager s = None → setup = ∅) ∧
     (is_Some (setupManager s) →
      ∃ ist cfg,
        config s = Some cfg ∧
        setup !! "interfaceStates" = Some (VMap ist) ∧
        (∀ name, ist !! name
                 = state_entry <$> last_state_query name (trace out)) ∧
        (∀ name, name ∈ CanPorts cfg → is_Some (ist !! name)))).
Proof.
  intros out. subst out. split.
  - intros Hmon. unfold GetStatus. shell_run. by rewrite Hmon.
  - intros [mon Hmon] Hcf. unfold GetStatus. shell_run.
    rewrite Hmon. cbn beta iota. shell_run.
    destruct (setupManager s) as [sm|] eqn:Hsm.
    + destruct Hcf as [cfg Hc]; [done|]. shell_run.
      match goal with
      | |- context [bind (states_loop _ _ _) _ _ ?w'] =>
          destruct (states_loop_run E (CanPorts cfg) ∅ s w')
            as (ist & Hr & Hs & Hq & Hd)
      end.
      cbn zeta in *. rewrite (bind_Ok _ _ _ _ _ Hr), Hs. shell_run. shell_out.
      cbv [ret]. cbn [res svc trace app].
      eexists _, _. split_and!; [done..|].
      intros _. exists ist, cfg. split_and!; [done..| |].
      * intros name. rewrite Hq, lookup_empty.
        cbn [last_state_query]. rewrite app_nil_r.
        by destruct (last_state_query name _).
      * intros name Hin. rewrite Hq. destruct (Hd name Hin) as [r ->].
        by eexists.
    + shell_run. shell_out. cbv [ret]. cbn [res svc trace app].
      eexists _, _. split_and!; [done..|]. by intros [? ?].
Qed.

(** ** The service states that [Initialize] produces *)

Lemma NewService_config_first : config_first NewService.
Proof. by intros [? ?]. Qed.

Lemma Initialize_config_first E s w :
  is_Some (logger s) → config_first s →
  config_first (svc (Initialize E s w)).
Proof.
  intros Hl Hcf. Initialize_split E s w Hl; rewrite Hs; try done.
  all: intros _; by eexists.
Qed.

Lemma Initialize_initialized E s w :
  is_Some (logger s) →
  let out := Initialize E s w in
  res out = Ok None →
  initialized (svc out) ∧
  ∃ c, config (svc out) = Some c ∧ EvParseConfig (inl c) ∈ trace out.
Proof.
  intros Hl out Hres. subst out.
  Initialize_split E s w Hl; rewrite Hr in Hres; try discriminate.
  rewrite Hs, Ht. split.
  - unfold initialized. cbn. split_and!; by eauto.
  - exists c. split; [done|]. set_solver.
Qed.

(** ** The shutdown context *)

Lemma Stop_context E ctx s w cfg ctx' r :
  initialized s → config s = Some cfg →
  EvShutdown ctx' r ∈ trace (Stop E ctx s w) → ctx' = ctx.
Proof.
  intros Hi Hc Hin.
  destruct (Stop_run E ctx s w cfg Hi Hc) as (_ & _ & Hst).
  assert (StepShutdown ctx' ∈ steps (trace (Stop E ctx s w))) as Hstep.
  { unfold steps. apply list_elem_of_omap. by exists (EvShutdown ctx' r). }
  rewrite Hst in Hstep. set_unfold in Hstep.
  destruct Hstep as [|[|[|(n & ? & _)]]]; try done. congruence.
Qed.

Lemma Start_run E ctx s w :
  is_Some (logger s) → is_Some (watchdog s) →
  let out := Start E ctx s w in
  svc out = s ∧ ∃ r, res out = Ok r ∧
  ∀ ev, ev ∈ trace out → ∀ ctx' r', ev ≠ EvShutdown ctx' r'.
Proof.
  intros [l Hl] [wd Hwd] out. subst out. unfold Start. shell_run. shell_call.
  destruct r as [err|]; shell_run; shell_out; cbv [ret]; cbn [res svc trace app];
    (split; [done|]); eexists; (split; [done|]); intros ev Hin; set_solver.
Qed.

(** X19: in [main], the context that reaches the HTTP server's [Shutdown]
    has the 30 second deadline. *)
Lemma main_shutdown_deadline E args s w ctx r :
  EvShutdown ctx r ∈ trace (main E args s w) →
  deadline ctx = Some (30 * Second).
Proof.
  unfold main. case_match.
  { shell_run. shell_out. cbv [ret]. cbn. set_solver. }
  shell_run.
  assert (is_Some (logger NewService)) as Hl by (by eexists).
  pose proof (Initialize_initialized E NewService w Hl) as Hok.
  cbn zeta in Hok.
  assert (∀ ev, ev ∈ trace (Initialize E NewService w) →
          ∀ ctx' r', ev ≠ EvShutdown ctx' r') as Hnone.
  { intros ev Hin ctx' r' ->.
    Initialize_split E NewService w Hl; rewrite Ht in Hin; try (sift Hin; fail).
    destruct (setupCanInterfaces_summary E (with_components c NewService) w1 c)
      as (Hp & _); [done..|].
    rewrite Forall_forall in Hp. sift Hin. }
  destruct (Initialize E NewService w) as [[[ierr|]|] s1 w1 t1] eqn:Hinit;
    cbn [res svc trace] in *.
  1,3: unfold bind; rewrite Hinit; cbn; rewrite ?app_nil_r;
       intros Hin; exfalso; exact (Hnone _ Hin ctx r eq_refl).
  destruct Hok as (Hi & c & Hc & _); [done|].
  unfold bind at 1. rewrite Hinit.
  destruct (Start_run E (WithCancel Background) s1 w1) as (Hs & sr & Hsr & Hst);
    [apply Hi..|].
  destruct sr as [serr|].
  - rewrite (bind_Ok _ _ _ _ _ Hsr). cbv [ret]. shell_out.
    cbn [trace]. intros Hin. set_unfold in Hin. destruct_or!; try done;
      match goal with
      | H : EvShutdown _ _ ∈ t1 |- _ => exfalso; exact (Hnone _ H _ _ eq_refl)
      | H : EvShutdown _ _ ∈ trace (Start _ _ _ _) |- _ =>
          exfalso; exact (Hst _ H _ _ eq_refl)
      end.
  - rewrite (bind_Ok _ _ _ _ _ Hsr), Hs. cbn beta iota. shell_run.
    destruct (Stop_run E (WithTimeout Background (30 * Second)) s1
                (AwaitSignal E (world (Start E (WithCancel Background) s1 w1))).2
                c Hi Hc) as (Hr & Hs' & _).
    rewrite (bind_Ok _ _ _ _ _ Hr), Hs'. cbn beta iota. shell_run.
    shell_out. cbv [ret]. cbn [trace]. intros Hin. set_unfold in Hin.
    destruct_or!; try done;
      match goal with
      | H : EvShutdown _ _ ∈ t1 |- _ => exfalso; exact (Hnone _ H _ _ eq_refl)
      | H : EvShutdown _ _ ∈ trace (Start _ _ _ _) |- _ =>
          exfalso; exact (Hst _ H _ _ eq_refl)
      | H : EvShutdown _ _ ∈ trace (Stop _ _ _ _) |- _ =>
          by rewrite (Stop_context _ _ _ _ _ _ _ Hi Hc H)
      end.
Qed.

(** * Further properties of the shell *)

(** ** What [setupCanInterfaces] returns *)

Lemma iter_int_incr (n : nat) :
  Z.of_nat n < 2 ^ 63 → Nat.iter n int_incr 0 = Z.of_nat n.
Proof.
  induction n as [|n IH]; intros Hn; [done|].
  rewrite Nat.iter_succ, IH by lia. unfold int_incr, wrap64.
  rewrite Z.mod_small by lia. lia.
Qed.

Lemma successes_le (l : list (string * option error)) :
  (successes l <= length l)%nat.
Proof. unfold successes. apply length_filter. Qed.

Lemma successes_zero (l : list (string * option error)) :
  successes l = 0%nat ↔ Forall (λ o, is_Some o.2) l.
Proof.
  split; [|apply successes_all_failed].
  unfold successes. induction l as [|[n [e|]] l IH]; intros Hz.
  - constructor.
  - rewrite filter_cons_False in Hz by done.
    constructor; [by eexists|by apply IH].
  - rewrite filter_cons_True in Hz by done. discriminate.
Qed.

Lemma failure_messages_nil (l : list (string * option error)) :
  failure_messages l = [] ↔ Forall (λ o, o.2 = None) l.
Proof.
  unfold failure_messages. induction l as [|[n [e|]] l IH].
  - split; [constructor|done].
  - split; [discriminate|]. intros [He _]%Forall_cons_1. discriminate.
  - change (omap failure_message ((n, None) :: l))
      with (omap failure_message l).
    rewrite IH. split; [by constructor|by intros [_ ?]%Forall_cons_1].
Qed.

Lemma setup_attempts_outcomes tr :
  setup_attempts tr = (setup_outcomes tr).*1.
Proof.
  unfold setup_attempts, setup_outcomes.
  induction tr as [|ev tr IH]; [done|]. destruct ev; cbn; by rewrite ?IH.
Qed.

(** X1: with no port configured, or with every bring-up failing,
    [setupCanInterfaces] returns the error "failed to setup any CAN
    interfaces" followed by the list of individual failures. *)
Theorem setupCanInterfaces_none_usable E s w cfg :
  is_Some (logger s) → is_Some (setupManager s) → config s = Some cfg →
  let out := setupCanInterfaces E s w in
  let outcomes := setup_outcomes (trace out) in
  (CanPorts cfg = [] → outcomes = []) ∧
  (Forall (λ o, is_Some o.2) outcomes →
   res out = Ok (Some (Errorf_list "failed to setup any CAN interfaces"
                         (failure_messages outcomes))) ∧
   length (failure_messages outcomes) = length (CanPorts cfg)).
Proof.
  intros Hl Hm Hc out outcomes.
  destruct (setupCanInterfaces_summary E s w cfg Hl Hm Hc)
    as (_ & Ha & _ & Hr).
  fold out in Ha, Hr. fold outcomes in Hr.
  rewrite setup_attempts_outcomes in Ha. fold outcomes in Ha.
  split.
  - intros Hnil. rewrite Hnil in Ha. by destruct outcomes.
  - intros Hall. rewrite Hr, (successes_all_failed _ Hall). cbn [Nat.iter].
    unfold setup_verdict. rewrite decide_True by done. split; [done|].
    rewrite <- Ha, length_fmap. clear -Hall. unfold failure_messages.
    induction Hall as [|[n o] l [e He] _ IH]; [done|].
    cbn in He. subst. cbn. by rewrite IH.
Qed.

(** X2: when the number of ports fits an [int], [setupCanInterfaces]
    returns nil exactly when there is at least one port and every bring-up
    succeeded, and the error "partial setup failure" when some succeeded and
    some failed. *)
Theorem setupCanInterfaces_verdict E s w cfg :
  is_Some (logger s) → is_Some (setupManager s) → config s = Some cfg →
  Z.of_nat (length (CanPorts cfg)) < 2 ^ 63 →
  let out := setupCanInterfaces E s w in
  let outcomes := setup_outcomes (trace out) in
  outcomes.*1 = CanPorts cfg ∧
  (res out = Ok None ↔
   CanPorts cfg ≠ [] ∧ Forall (λ o, o.2 = None) outcomes) ∧
  (Exists (λ o, o.2 = None) outcomes → Exists (λ o, is_Some o.2) outcomes →
   res out = Ok (Some (Errorf_list "partial setup failure"
                         (failure_messages outcomes)))).
Proof.
  intros Hl Hm Hc Hlen out outcomes.
  destruct (setupCanInterfaces_summary E s w cfg Hl Hm Hc)
    as (_ & Ha & _ & Hr).
  fold out in Ha, Hr. fold outcomes in Hr.
  rewrite setup_attempts_outcomes in Ha. fold outcomes in Ha.
  assert (length outcomes = length (CanPorts cfg)) as Hlo
    by (by rewrite <- Ha, length_fmap).
  pose proof (successes_le outcomes) as Hle.
  rewrite iter_int_incr in Hr by lia.
  split; [done|]. rewrite Hr. unfold setup_verdict. split.
  - split.
    + intros Hnil. repeat case_decide; try discriminate.
      split.
      * intros Hp. rewrite Hp in Hlo. destruct outcomes; [|done].
        unfold successes in *. cbn in *. lia.
      * apply failure_messages_nil.
        destruct (failure_messages outcomes); [done|cbn in *; lia].
    + intros [Hne Hall]. apply failure_messages_nil in Hall.
      rewrite Hall. cbn. rewrite decide_False; [done|].
      intros Hz. assert (successes outcomes = 0%nat) as Hz' by lia.
      apply successes_zero in Hz'. apply failure_messages_nil in Hall.
      destruct outcomes as [|o l]; [by destruct (CanPorts cfg)|].
      apply Forall_cons_1 in Hz' as [[e He] _].
      apply Forall_cons_1 in Hall as [Hn _]. congruence.
  - intros Hsome Hfail.
    rewrite decide_False.
    + rewrite decide_True; [done|].
      destruct (failure_messages outcomes) eqn:Hf; [|cbn; lia].
      apply failure_messages_nil in Hf.
      apply Exists_exists in Hfail as (o & Hin & [e He]).
      rewrite Forall_forall in Hf. specialize (Hf o Hin). congruence.
    + intros Hz. assert (successes outcomes = 0%nat) as Hz' by lia.
      apply successes_zero in Hz'.
      apply Exists_exists in Hsome as (o & Hin & Hn).
      rewrite Forall_forall in Hz'. destruct (Hz' o Hin) as [e He].
      congruence.
Qed.

Lemma setup_loop_state_queries E ports : ∀ setupErrors successCount s w,
  is_Some (logger s) → is_Some (setupManager s) →
  let tr := trace (setup_loop E ports setupErrors successCount s w) in
  state_queries tr = omap succeeded (setup_outcomes tr).
Proof.
  induction ports as [|ifName rest IH]; intros errs cnt s w Hl Hm; [done|].
  pose proof Hl as [l Hl']. pose proof Hm as [m Hm'].
  cbn [setup_loop]. shell_run.
  destruct (SetupInterfaceWithRetry E ifName w) as [[err|] w1]; cbn [fst snd].
  - shell_run. shell_out. cbn [app].
    unfold state_queries, setup_outcomes in *. cbn. by apply IH.
  - shell_run.
    destruct (GetInterfaceState E ifName w1) as [[state|qerr] w2];
      cbn [fst snd]; shell_run; shell_out; cbn [app];
      unfold state_queries, setup_outcomes in *; cbn; f_equal; by apply IH.
Qed.

(** X3: during bring-up [GetInterfaceState] is called for exactly the
    ports whose bring-up succeeded, in order, and for no port whose bring-up
    failed. *)
Theorem state_verified_after_success E s w cfg :
  is_Some (logger s) → is_Some (setupManager s) → config s = Some cfg →
  let out := setupCanInterfaces E s w in
  state_queries (trace out) = omap succeeded (setup_outcomes (trace out)) ∧
  ∀ ifName,
    (∀ r, (ifName, r) ∈ setup_outcomes (trace out) → is_Some r) →
    ifName ∉ state_queries (trace out).
Proof.
  intros Hl Hm Hc out.
  assert (state_queries (trace out)
          = omap succeeded (setup_outcomes (trace out))) as Heq.
  { subst out.
    destruct (setupCanInterfaces_run E s w cfg Hl Hm Hc)
      as (final & Ht & Hf & _).
    rewrite (setupCanInterfaces_outcomes E s w cfg Hl Hm Hc), Ht.
    unfold state_queries. rewrite !omap_app, (omap_printf _ final) by done.
    rewrite app_nil_r.
    rewrite <- (setup_loop_state_queries E (CanPorts cfg) [] 0 s _ Hl Hm).
    by destruct (GetAvailableInterfaces E w).1. }
  split; [done|]. intros ifName Hfail Hin. rewrite Heq in Hin.
  apply list_elem_of_omap in Hin as ([n r] & Hin & Hs).
  unfold succeeded in Hs. cbn in Hs. destruct r as [e|]; simplify_eq.
  by destruct (Hfail None Hin).
Qed.

Lemma setup_loop_with_states E f ports : ∀ setupErrors successCount s w,
  is_Some (logger s) → is_Some (setupManager s) →
  let o1 := setup_loop (with_states f E) ports setupErrors successCount s w in
  let o2 := setup_loop E ports setupErrors successCount s w in
  res o1 = res o2 ∧ world o1 = world o2 ∧
  setup_outcomes (trace o1) = setup_outcomes (trace o2).
Proof.
  induction ports as [|ifName rest IH]; intros errs cnt s w Hl Hm; [done|].
  pose proof Hl as [l Hl']. pose proof Hm as [m Hm'].
  cbn [setup_loop]. shell_run.
  cbn [with_states SetupInterfaceWithRetry GetInterfaceState].
  destruct (SetupInterfaceWithRetry E ifName w) as [[err|] w1]; cbn [fst snd].
  - shell_run. shell_out. cbn [app]. unfold setup_outcomes in *. cbn.
    destruct (IH (errs ++ [ifName +:+ ": " +:+ err]) cnt s w1 Hl Hm)
      as (-> & -> & ->). done.
  - shell_run. cbn [fst snd].
    destruct (IH errs (int_incr cnt) s (GetInterfaceState E ifName w1).2 Hl Hm)
      as (Hr & Hw & Ho).
    destruct (f ifName w1), (GetInterfaceState E ifName w1).1;
      shell_run; shell_out; cbn [app]; unfold setup_outcomes in *; cbn;
      by rewrite Hr, Hw, Ho.
Qed.

(** X18: what the state query after a successful bring-up returns has no
    influence on the result of [setupCanInterfaces] nor on the bring-up of
    the other ports: a port whose verification fails still counts as set
    up. *)
Theorem state_verification_not_decisive E f s w cfg :
  is_Some (logger s) → is_Some (setupManager s) → config s = Some cfg →
  let out := setupCanInterfaces E s w in
  let out' := setupCanInterfaces (with_states f E) s w in
  res out' = res out ∧
  setup_outcomes (trace out') = setup_outcomes (trace out).
Proof.
  intros Hl Hm Hc out out'. subst out out'.
  assert (setup_outcomes (trace (setupCanInterfaces (with_states f E) s w))
          = setup_outcomes (trace (setupCanInterfaces E s w))) as Ho.
  { rewrite !(setupCanInterfaces_outcomes _ s w cfg) by done.
    by destruct (setup_loop_with_states E f (CanPorts cfg) [] 0 s
                   (GetAvailableInterfaces E w).2 Hl Hm) as (_ & _ & ?). }
  split; [|done].
  destruct (setupCanInterfaces_summary E s w cfg Hl Hm Hc)
    as (_ & _ & _ & ->).
  destruct (setupCanInterfaces_summary (with_states f E) s w cfg Hl Hm Hc)
    as (_ & _ & _ & ->).
  by rewrite Ho.
Qed.

(** ** More on [Initialize] *)

Lemma cut_unique_by {A} (P : A → Prop) (a b l1 l2 : list A) x y :
  l1 ++ x :: l2 = a ++ y :: b → P x → P y →
  Forall (λ z, ¬ P z) a → Forall (λ z, ¬ P z) b →
  l1 = a ∧ x = y ∧ l2 = b.
Proof.
  intros Heq Hx Hy Ha Hb. revert l1 Heq.
  induction Ha as [|a0 a Ha0 Ha IH]; intros [|z l1] Heq; simplify_eq/=.
  - done.
  - rewrite Forall_forall in Hb. destruct (Hb x); [set_solver|done].
  - done.
  - by destruct (IH l1) as (-> & -> & ->).
Qed.

(** X4: when [ParseConfig] or [ValidateConfig] fails, [Initialize] returns
    the wrapped error, calls nothing else and leaves every field of the
    service as it was. *)
Theorem Initialize_rejects_configuration E s w :
  is_Some (logger s) →
  let out := Initialize E s w in
  (∀ e, EvParseConfig (inr e) ∈ trace out →
        res out = Ok (Some (Errorf_wrap "failed to parse configuration" e)) ∧
        trace out = [EvParseConfig (inr e)] ∧ svc out = s) ∧
  (∀ c e, EvValidateConfig c (Some e) ∈ trace out →
          res out = Ok (Some (Errorf_wrap "configuration validation failed" e)) ∧
          trace out = [EvParseConfig (inl c); EvValidateConfig c (Some e)] ∧
          svc out = s).
Proof.
  intros Hl out. subst out. split.
  - intros e' Hin.
    Initialize_split E s w Hl; rewrite Ht in Hin |- *; rewrite Hr, Hs.
    2-3: sift Hin.
    + sift Hin. by simplify_eq.
    + destruct (setupCanInterfaces_summary E (with_components c s) w1 c)
        as (Hp & _); [done..|].
      rewrite Forall_forall in Hp. sift Hin.
  - intros c' e' Hin.
    Initialize_split E s w Hl; rewrite Ht in Hin |- *; rewrite Hr, Hs.
    1,3: sift Hin.
    + sift Hin. by simplify_eq.
    + destruct (setupCanInterfaces_summary E (with_components c s) w1 c)
        as (Hp & _); [done..|].
      rewrite Forall_forall in Hp. sift Hin.
Qed.

(** X5: when [Initialize] returns nil, the stored configuration is the
    parsed one, every component field is set (configuration provider,
    setup manager, interface manager, message sender, watchdog, monitor,
    API handler), and the HTTP server listens on ":" followed by the
    configured port with timeouts of 5, 10 and 120 seconds; when it returns
    an error, the interface manager, message sender, watchdog, monitor,
    API handler and HTTP server fields are as they were; the logger is
    never changed. *)
Theorem Initialize_final_state E s w :
  is_Some (logger s) →
  let out := Initialize E s w in
  (res out = Ok None →
   ∃ c, EvParseConfig (inl c) ∈ trace out ∧
        config (svc out) = Some c ∧
        configProvider (svc out) = Some (NewDefaultConfigProvider c) ∧
        setupManager (svc out) = Some NewInterfaceSetupManager ∧
        interfaceManager (svc out) = Some NewInterfaceManager ∧
        messageSender (svc out) = Some NewMessageSender ∧
        watchdog (svc out) = Some NewWatchdog ∧
        monitor (svc out) = Some NewMonitor ∧
        apiHandler (svc out) = Some NewAPIHandlerWithSetup ∧
        server (svc out)
        = Some {| Addr := ":" +:+ Port c; ReadTimeout := 5000000000;
                  WriteTimeout := 10000000000; IdleTimeout := 120000000000 |} ∧
        initialized (svc out)) ∧
  (∀ e, res out = Ok (Some e) →
        interfaceManager (svc out) = interfaceManager s ∧
        messageSender (svc out) = messageSender s ∧
        watchdog (svc out) = watchdog s ∧
        monitor (svc out) = monitor s ∧
        apiHandler (svc out) = apiHandler s ∧
        server (svc out) = server s) ∧
  logger (svc out) = logger s.
Proof.
  intros Hl out. subst out.
  Initialize_split E s w Hl; rewrite Ht, Hr, Hs; clear Ht Hr Hs.
  1-3: split_and!; [done|by intros ? [= <-]|done].
  split_and!; [|done..]. intros _. exists c.
  split_and!; [set_solver|done..|].
  unfold initialized. cbn. split_and!; by eauto.
Qed.

(** X6: when [Initialize] returns nil, [InitializeAll] was called exactly
    once, after the bring-up of every configured port had been attempted
    and before the routes were registered; when [Initialize] returns an
    error, [InitializeAll] was not called. *)
Theorem InitializeAll_after_bring_up E s w :
  is_Some (logger s) →
  let out := Initialize E s w in
  (res out = Ok None →
   ∃ pre r post, trace out = pre ++ EvInitializeAll r :: post) ∧
  (∀ e, res out = Ok (Some e) → ∀ r, EvInitializeAll r ∉ trace out) ∧
  (∀ pre r post,
     trace out = pre ++ EvInitializeAll r :: post →
     res out = Ok None ∧
     ∃ c, config (svc out) = Some c ∧
          setup_attempts pre = CanPorts c ∧ setup_attempts post = [] ∧
          (∀ ev, ev ∈ pre ++ post → ∀ r', ev ≠ EvInitializeAll r') ∧
          EvSetupRoutes ∈ post).
Proof.
  intros Hl out. subst out. split_and!.
  - intros Hres.
    Initialize_split E s w Hl; rewrite Hr in Hres; try discriminate.
    rewrite Ht.
    match goal with
    | |- ∃ pre r post,
           ?a ++ ?b ++ ?d ++ ?t ++ ?v ++ [EvInitializeAll ?i] ++ ?f = _ =>
        exists (a ++ b ++ d ++ t ++ v), i, f
    end.
    by rewrite <- !app_assoc.
  - intros e' Hres r Hin.
    Initialize_split E s w Hl; rewrite Hr in Hres; try discriminate;
      rewrite Ht in Hin; sift Hin.
  - intros pre r post Hcut.
    assert (EvInitializeAll r ∈ trace (Initialize E s w)) as Hin
      by (rewrite Hcut; set_solver).
    Initialize_split E s w Hl; rewrite Ht in Hin, Hcut; rewrite Hs, Hr;
      try (sift Hin; fail). clear Hin Hr Hs Ht. split; [done|].
    destruct (setupCanInterfaces_summary E (with_components c s) w1 c)
      as (Hp & Ha & _); [done..|].
    rewrite Forall_forall in Hp.
    set (before := [EvParseConfig (inl c); EvValidateConfig c None]
                   ++ config_banner c ++ [EvValidateSetupConfig None]
                   ++ trace (setupCanInterfaces E (with_components c s) w1)
                   ++ setup_warning verdict).
    set (after := (initialize_all_warning ia
                     : list (Event SetupConfigT ActiveT))
                  ++ [EvSetupRoutes;
                      EvPrintf "🌐 CAN Communication Service will run at http://localhost%s"
                        [AStr (":" +:+ Port c)]]).
    assert (pre ++ EvInitializeAll r :: post
            = before ++ EvInitializeAll ia :: after) as Hcut'.
    { rewrite <- Hcut. subst before after. unfold config_banner.
      by rewrite <- !app_assoc. }
    clear Hcut. subst before after. unfold config_banner in Hcut'.
    apply (cut_unique_by (λ ev, ∃ r', ev = EvInitializeAll r')) in Hcut'
      as (-> & _ & ->); [|by eexists..| |].
    + exists c. split; [done|]. split_and!.
      * unfold setup_attempts in *. rewrite !omap_app. cbn. rewrite Ha.
        destruct verdict; cbn; by rewrite app_nil_r.
      * unfold setup_attempts. rewrite omap_app. by destruct ia.
      * intros ev Hin r' ->. sift Hin.
      * set_solver.
    + apply Forall_forall. intros ev Hin [r' ->]. sift Hin.
    + apply Forall_forall. intros ev Hin [r' ->]. sift Hin.
Qed.

(** ** Failures are logged *)

Lemma failures_logged_app tr tr' :
  failures_logged tr → failures_logged tr' → failures_logged (tr ++ tr').
Proof.
  induction tr as [|ev tr IH]; [done|]. intros [Hev Htr] Htr'. split.
  - destruct (warning_for ev); [|done]. by destruct tr.
  - by apply IH.
Qed.

Lemma failures_logged_cut pre ev post line :
  failures_logged (pre ++ ev :: post) → warning_for ev = Some line →
  ∃ post', post = line :: post'.
Proof.
  induction pre as [|ev' pre IH]; intros [Hev Htr] Hw.
  - rewrite Hw in Hev. destruct post; simplify_eq/=. by eexists.
  - by apply IH.
Qed.

Lemma failures_logged_printf tr :
  Forall (λ ev, is_printf ev = true) tr → failures_logged tr.
Proof.
  induction 1 as [|ev tr Hev _ IH]; [done|]. by destruct ev.
Qed.

Lemma setup_loop_logged E ports : ∀ setupErrors successCount s w,
  is_Some (logger s) → is_Some (setupManager s) →
  failures_logged (trace (setup_loop E ports setupErrors successCount s w)).
Proof.
  induction ports as [|ifName rest IH]; intros errs cnt s w Hl Hm; [done|].
  pose proof Hl as [l Hl']. pose proof Hm as [m Hm'].
  cbn [setup_loop]. shell_run.
  destruct (SetupInterfaceWithRetry E ifName w) as [[err|] w1]; cbn [fst snd].
  - shell_run. shell_out. cbn. split_and!; try done. by apply IH.
  - shell_run.
    destruct (GetInterfaceState E ifName w1) as [[state|qerr] w2];
      cbn [fst snd]; shell_run; shell_out; cbn;
      split_and!; try done; by apply IH.
Qed.

Lemma teardown_loop_logged E ports : ∀ s w,
  is_Some (logger s) → is_Some (setupManager s) →
  failures_logged (trace (teardown_loop E ports s w)).
Proof.
  induction ports as [|ifName rest IH]; intros s w Hl Hm; [done|].
  pose proof Hl as [l Hl']. pose proof Hm as [m Hm'].
  cbn [teardown_loop]. shell_run. shell_call.
  destruct r as [err|]; shell_run; shell_out; cbn;
    split_and!; try done; by apply IH.
Qed.

(** X7: during [Initialize], a failed listing, a failed bring-up and a
    failed [InitializeAll] are each followed at once by their log line. *)
Theorem Initialize_logs_failures E s w pre ev post line :
  is_Some (logger s) →
  trace (Initialize E s w) = pre ++ ev :: post →
  warning_for ev = Some line →
  ∃ post', post = line :: post'.
Proof.
  intros Hl Hcut Hw. eapply failures_logged_cut; [|exact Hw].
  rewrite <- Hcut. clear Hcut Hw.
  Initialize_split E s w Hl; rewrite Ht; clear Ht Hr Hs.
  1-3: by cbn; split_and!.
  destruct (setupCanInterfaces_run E (with_components c s) w1 c)
    as (final & Ht & Hf & _); [done..|].
  cbn zeta in Ht. rewrite Ht.
  destruct verdict, ia, (GetAvailableInterfaces E w1).1; cbn;
    split_and!; try done; repeat apply failures_logged_app;
    first [ by apply setup_loop_logged
          | by apply failures_logged_printf
          | by cbn; split_and! ].
Qed.

(** X8: during [Stop], a failed watchdog stop, a failed HTTP shutdown and
    a failed teardown are each followed at once by their log line. *)
Theorem Stop_logs_failures E ctx s w cfg pre ev post line :
  initialized s → config s = Some cfg →
  trace (Stop E ctx s w) = pre ++ ev :: post →
  warning_for ev = Some line →
  ∃ post', post = line :: post'.
Proof.
  intros (_ & Hm & [im Him] & [wd Hwd] & _ & _ & [srv Hsrv] & Hl) Hc Hcut Hw.
  eapply failures_logged_cut; [|exact Hw]. rewrite <- Hcut. clear Hcut Hw.
  pose proof Hl as [l Hl']. pose proof Hm as [m Hm'].
  unfold Stop. shell_run. shell_call.
  destruct r as [werr|]; shell_run; rewrite Hsrv; cbn beta iota; shell_run;
    shell_call; destruct r as [herr|]; shell_run; rewrite Him; cbn beta iota;
    shell_run; rewrite Hm'; cbn beta iota.
  all: unfold teardownCanInterfaces; shell_run.
  all: match goal with
       | |- context [bind (teardown_loop _ _) _ _ ?w'] =>
           destruct (teardown_loop_run E (CanPorts cfg) s w' Hl Hm)
             as (Hr & Hs & _);
           pose proof (teardown_loop_logged E (CanPorts cfg) s w' Hl Hm)
       end.
  all: rewrite (bind_Ok _ _ _ _ _ Hr), Hs; cbn beta iota; shell_run; shell_out.
  all: cbv [ret]; cbn [trace]; cbn; split_and!; try done.
  all: repeat apply failures_logged_app; try done; by cbn; split_and!.
Qed.

(** ** More on [Start] and [Stop] *)

(** X9: [Start] starts the watchdog first; when that fails it returns the
    wrapped error and starts no goroutine, otherwise it starts the node
    finder and then the HTTP listener and returns nil. *)
Theorem Start_outcomes E ctx s w :
  is_Some (logger s) → is_Some (watchdog s) →
  let out := Start E ctx s w in
  svc out = s ∧
  (∃ r tr', trace out = EvWatchdogStart ctx r :: tr' ∧
            ∀ ctx' r', EvWatchdogStart ctx' r' ∉ tr') ∧
  (∀ err, EvWatchdogStart ctx (Some err) ∈ trace out →
          res out = Ok (Some (Errorf_wrap "failed to start watchdog" err)) ∧
          omap spawned (trace out) = []) ∧
  (EvWatchdogStart ctx None ∈ trace out →
   res out = Ok None ∧
   omap spawned (trace out) = [GoNodeFinder; GoListenAndServe]).
Proof.
  intros [l Hl] [wd Hwd] out. subst out. unfold Start. shell_run. shell_call.
  destruct r as [err|]; shell_run; shell_out; cbv [ret];
    cbn [res svc trace app].
  - split_and!; [done|eexists _, []; split; [done|set_solver]| |set_solver].
    intros err' Hin. set_unfold in Hin. destruct Hin as [Hin|[]].
    by simplify_eq.
  - split_and!; [done| |set_solver|done].
    eexists _, _. split; [done|]. set_solver.
Qed.

Lemma teardown_attempts_steps tr :
  teardown_attempts tr = omap torn_down (steps tr).
Proof.
  unfold teardown_attempts, steps.
  induction tr as [|ev tr IH]; [done|]. destruct ev; cbn; by rewrite ?IH.
Qed.

(** X10: [Stop] skips the HTTP shutdown when no server is stored, the
    cleanup when no interface manager is stored and the teardown when no
    setup manager is stored; the remaining steps keep their order and
    [Stop] returns nil. *)
Theorem Stop_skips_missing_components E ctx s w :
  is_Some (logger s) → is_Some (watchdog s) → config_first s →
  let out := Stop E ctx s w in
  res out = Ok None ∧ svc out = s ∧
  steps (trace out)
  = [StepWatchdogStop]
    ++ (if server s is Some _ then [StepShutdown ctx] else [])
    ++ (if interfaceManager s is Some _ then [StepCleanup] else [])
    ++ (if setupManager s is Some _
        then StepTeardown <$> from_option CanPorts [] (config s) else []).
Proof.
  intros Hl [wd Hwd] Hcf out. subst out. pose proof Hl as [l Hl'].
  unfold Stop. shell_run. shell_call.
  assert (∀ w',
    match setupManager s with
    | Some _ =>
        res (teardownCanInterfaces E s w') = Ok tt ∧
        svc (teardownCanInterfaces E s w') = s ∧
        steps (trace (teardownCanInterfaces E s w'))
        = StepTeardown <$> from_option CanPorts [] (config s)
    | None => True
    end) as Htd.
  { intros w'. destruct (setupManager s) as [m|] eqn:Hm; [|done].
    destruct Hcf as [cfg Hc]; [done|].
    destruct (teardownCanInterfaces_run E s w' cfg Hl) as (? & ? & _ & ?);
      [by eexists|done|]. by rewrite Hc. }
  destruct r as [werr|]; shell_run;
    destruct (server s) as [srv|] eqn:Hsrv; cbn beta iota; shell_run;
    try (shell_call; destruct r as [herr|]; shell_run);
    destruct (interfaceManager s) as [im|] eqn:Him; cbn beta iota; shell_run.
  all: match goal with
       | |- context [bind _ _ _ ?w'] => specialize (Htd w')
       end.
  all: destruct (setupManager s) as [m|] eqn:Hm; cbn beta iota;
       [destruct Htd as (Hr & Hs & Hst);
        rewrite (bind_Ok _ _ _ _ _ Hr), Hs; cbn beta iota|];
       shell_run; shell_out; cbv [ret]; cbn [trace res svc];
       unfold steps in *; rewrite ?omap_app; cbn; rewrite ?Hst, ?app_nil_r;
       done.
Qed.

(** ** Startup and shutdown together *)

Lemma Initialize_setup_attempts E s w :
  is_Some (logger s) →
  let out := Initialize E s w in
  res out = Ok None →
  ∃ c, config (svc out) = Some c ∧ initialized (svc out) ∧
       setup_attempts (trace out) = CanPorts c ∧
       steps (trace out) = [] ∧ omap spawned (trace out) = [].
Proof.
  intros Hl out Hres. subst out.
  Initialize_split E s w Hl; rewrite Hr in Hres; try discriminate.
  destruct (setupCanInterfaces_summary E (with_components c s) w1 c)
    as (Hp & Ha & _); [done..|].
  exists c. rewrite Hs, Ht. split; [done|]. split.
  { unfold initialized. cbn. split_and!; by eauto. }
  assert (∀ B (f : Event SetupConfigT ActiveT → option B),
            (∀ ev, setup_phase ev = true → f ev = None) →
            omap f (trace (setupCanInterfaces E (with_components c s) w1)) = [])
    as Hnone.
  { intros B f Hf. revert Hp.
    generalize (trace (setupCanInterfaces E (with_components c s) w1)).
    induction 1 as [|ev tr Hev _ IH]; [done|].
    change (omap f (ev :: tr))
      with (match f ev with Some y => y :: omap f tr | None => omap f tr end).
    by rewrite (Hf ev Hev). }
  unfold setup_attempts, steps in *. rewrite !omap_app, Ha.
  rewrite (Hnone _ step_of), (Hnone _ spawned) by (by intros []).
  destruct verdict, ia; cbn; by rewrite ?app_nil_r.
Qed.

Lemma omap_torn_down (ctx : Context) (ports : list string) :
  omap torn_down ([StepWatchdogStop; StepShutdown ctx; StepCleanup]
                  ++ (StepTeardown <$> ports)) = ports.
Proof. cbn. induction ports as [|p ps IH]; [done|]. cbn. by rewrite IH. Qed.

(** X11: after a successful [Initialize], [Stop] attempts the teardown of
    exactly the ports whose bring-up was attempted at startup, in the same
    order, whether or not their bring-up had succeeded. *)
Theorem Stop_tears_down_what_startup_attempted E s w ctx w' :
  is_Some (logger s) →
  let up := Initialize E s w in
  res up = Ok None →
  let down := Stop E ctx (svc up) w' in
  res down = Ok None ∧
  teardown_attempts (trace down) = setup_attempts (trace up).
Proof.
  intros Hl up Hres down.
  destruct (Initialize_setup_attempts E s w Hl Hres)
    as (c & Hc & Hi & Ha & _).
  fold up in Hc, Hi, Ha.
  destruct (Stop_run E ctx (svc up) w' c Hi Hc) as (Hr & _ & Hst).
  fold down in Hr, Hst. split; [done|].
  rewrite teardown_attempts_steps, Hst, Ha. apply omap_torn_down.
Qed.

(** ** More on [GetStatus] *)

Lemma GetStatus_not_initialized E s w :
  monitor s = None →
  GetStatus E s w
  = {| res := Ok ({["status" := VString "not_initialized"]}
                  : gmap string (Value SetupConfigT ActiveT));
       svc := s; world := w; trace := [] |}.
Proof. intros Hmon. unfold GetStatus. shell_run. by rewrite Hmon. Qed.

Lemma states_loop_queries E ports :
  ∀ (m : gmap string (Value SetupConfigT ActiveT)) s w,
  let out := states_loop E ports m s w in
  ∃ m', res out = Ok m' ∧
    dom m' = dom m ∪ list_to_set ports ∧
    state_queries (trace out) = ports ∧
    Forall (λ ev, ∃ n r, ev = EvGetInterfaceState n r) (trace out).
Proof.
  induction ports as [|ifName rest IH]; intros m s w.
  - exists m. split_and!; [done|set_solver|done|constructor].
  - cbn [states_loop]. shell_run. shell_call.
    set (m1 := match r with
               | inl state => <[ifName := VState state]> m
               | inr err => <[ifName := VMap {["error" := VString err]}]> m
               end).
    destruct (IH m1 s w0) as (m' & Hr & Hd & Hq & Hf).
    exists m'.
    assert (prepend [EvGetInterfaceState ifName r]
              (match r with
               | inl state =>
                   states_loop E rest (<[ifName := VState state]> m)
               | inr err =>
                   states_loop E rest
                     (<[ifName := VMap {["error" := VString err]}]> m)
               end s w0)
            = prepend [EvGetInterfaceState ifName r] (states_loop E rest m1 s w0))
      as -> by (by destruct r).
    shell_out. cbn [app]. split_and!.
    + done.
    + rewrite Hd. subst m1. destruct r; rewrite dom_insert_L; set_solver.
    + unfold state_queries in *. cbn. by rewrite Hq.
    + constructor; [by eexists _, _|done].
Qed.

(** The shape of the report for a service with a monitor. *)
Lemma GetStatus_run E s w :
  is_Some (monitor s) → config_first s →
  let out := GetStatus E s w in
  let status := (GetSystemStatus E w).1 in
  ∃ setup (rest : list (Event SetupConfigT ActiveT)),
    res out
    = Ok (<["setup" := VMap setup]>
            (<["watchdogRunning" := VBool (Running (WatchdogStatus status))]>
            (<["activeInterfaces" := VActive (ActiveInterfaces status)]>
            (<["uptime" := VString (DurationString E (SystemUptime status))]>
            (<["status" := VString "running"]> ∅))))) ∧
    svc out = s ∧
    trace out = EvGetSystemStatus status :: rest ∧
    (setupManager s = None → setup = ∅ ∧ rest = []) ∧
    (is_Some (setupManager s) →
     ∃ cfg ist setupConfig queries,
       config s = Some cfg ∧
       setup = <["interfaceStates" := VMap ist]>
                 (<["config" := VConfig setupConfig]> ∅) ∧
       rest = EvGetSetupConfig setupConfig :: queries ∧
       dom ist = list_to_set (CanPorts cfg) ∧
       state_queries queries = CanPorts cfg ∧
       Forall (λ ev, ∃ n r, ev = EvGetInterfaceState n r) queries).
Proof.
  intros [mon Hmon] Hcf out status. subst out status.
  unfold GetStatus. shell_run. rewrite Hmon. cbn beta iota. shell_run.
  destruct (setupManager s) as [sm|] eqn:Hsm.
  - destruct Hcf as [cfg Hc]; [done|]. shell_run.
    match goal with
    | |- context [bind (states_loop _ _ _) _ _ ?w'] =>
        destruct (states_loop_queries E (CanPorts cfg) ∅ s w')
          as (ist & Hr & Hd & Hq & Hf)
    end.
    cbn zeta in *. rewrite (bind_Ok _ _ _ _ _ Hr).
    assert (svc (states_loop E (CanPorts cfg) ∅ s
                   (GetSetupConfig E (GetSystemStatus E w).2).2) = s) as Hs.
    { by destruct (states_loop_run E (CanPorts cfg) ∅ s
                     (GetSetupConfig E (GetSystemStatus E w).2).2)
        as (? & _ & ? & _). }
    rewrite Hs. shell_run. shell_out. cbv [ret]. cbn [res svc trace app].
    eexists _, _. split_and!; [done..| |].
    + by intros ?.
    + intros _. eexists cfg, ist, _, _. split_and!; [done..| | |].
      * rewrite Hd. set_solver.
      * by rewrite app_nil_r.
      * by rewrite app_nil_r.
  - shell_run. shell_out. cbv [ret]. cbn [res svc trace app].
    eexists _, _. split_and!; [done..|]. by intros [? ?].
Qed.

(** X12: after [Initialize] on a service without monitor, [GetStatus]
    answers "not_initialized" when [Initialize] returned an error and
    "running" when it returned nil. *)
Theorem GetStatus_after_Initialize E s w w' :
  is_Some (logger s) → monitor s = None →
  let up := Initialize E s w in
  let out := GetStatus E (svc up) w' in
  (∀ e, res up = Ok (Some e) →
        res out = Ok {["status" := VString "not_initialized"]} ∧
        trace out = []) ∧
  (res up = Ok None →
   ∃ m, res out = Ok m ∧ m !! "status" = Some (VString "running")).
Proof.
  intros Hl Hmon up out. subst up out. split.
  - intros e Hres.
    assert (monitor (svc (Initialize E s w)) = None) as Hnone.
    { Initialize_split E s w Hl; rewrite Hr in Hres; try discriminate;
        by rewrite Hs. }
    by rewrite (GetStatus_not_initialized E _ w' Hnone).
  - intros Hres.
    destruct (Initialize_setup_attempts E s w Hl Hres)
      as (c & Hc & Hi & _).
    destruct (GetStatus_run E (svc (Initialize E s w)) w')
      as (setup & rest & Hr & _); [apply Hi|by intros _; eexists|].
    eexists. split; [exact Hr|]. by simplify_map_eq.
Qed.

(** X13: the report of [GetStatus] on a service with a monitor has exactly
    the keys status, uptime, activeInterfaces, watchdogRunning and setup,
    the middle three taken from the monitor's system status. *)
Theorem GetStatus_report E s w :
  is_Some (monitor s) → config_first s →
  let out := GetStatus E s w in
  let status := (GetSystemStatus E w).1 in
  ∃ m, res out = Ok m ∧
    dom m = {["status"; "uptime"; "activeInterfaces"; "watchdogRunning";
              "setup"]} ∧
    m !! "uptime"
    = Some (VString (DurationString E (SystemUptime status))) ∧
    m !! "activeInterfaces" = Some (VActive (ActiveInterfaces status)) ∧
    m !! "watchdogRunning"
    = Some (VBool (Running (WatchdogStatus status))).
Proof.
  intros Hmon Hcf out status.
  destruct (GetStatus_run E s w Hmon Hcf) as (setup & rest & Hr & _).
  eexists. split; [exact Hr|]. split_and!; [|by simplify_map_eq..].
  rewrite !dom_insert_L, dom_empty_L. set_solver.
Qed.

(** X14: [GetStatus] changes no field of the service; without setup
    manager it only asks the monitor, and with one it asks the setup
    configuration and then the state of each configured port once, in
    order, the entries of interfaceStates being exactly the configured
    ports. *)
Theorem GetStatus_queries_each_port E s w :
  is_Some (monitor s) → config_first s →
  let out := GetStatus E s w in
  let status := (GetSystemStatus E w).1 in
  svc out = s ∧
  (setupManager s = None →
   trace out = [EvGetSystemStatus status] ∧
   ∃ m, res out = Ok m ∧ m !! "setup" = Some (VMap ∅)) ∧
  (is_Some (setupManager s) →
   ∃ cfg setupConfig queries m setup ist,
     config s = Some cfg ∧
     trace out
     = EvGetSystemStatus status :: EvGetSetupConfig setupConfig :: queries ∧
     Forall (λ ev, ∃ n r, ev = EvGetInterfaceState n r) queries ∧
     state_queries queries = CanPorts cfg ∧
     res out = Ok m ∧ m !! "setup" = Some (VMap setup) ∧
     dom setup = {["config"; "interfaceStates"]} ∧
     setup !! "interfaceStates" = Some (VMap ist) ∧
     dom ist = list_to_set (CanPorts cfg)).
Proof.
  intros Hmon Hcf out status.
  destruct (GetStatus_run E s w Hmon Hcf)
    as (setup & rest & Hr & Hs & Ht & Hnone & Hsome).
  split; [done|]. split.
  - intros Hsm. destruct (Hnone Hsm) as [-> ->]. split; [done|].
    eexists. split; [exact Hr|]. by simplify_map_eq.
  - intros Hsm.
    destruct (Hsome Hsm) as (cfg & ist & sc & queries & Hc & -> & -> & Hd & Hq & Hf).
    exists cfg, sc, queries. eexists _, _, ist.
    split_and!; [done..|exact Hr|by simplify_map_eq| |by simplify_map_eq|done].
    rewrite !dom_insert_L, dom_empty_L. set_solver.
Qed.

(** ** [main] *)

Lemma Initialize_quiet E s w :
  is_Some (logger s) →
  let out := Initialize E s w in
  (∃ r, res out = Ok r) ∧
  steps (trace out) = [] ∧ omap spawned (trace out) = [] ∧
  (EvAwaitSignal ∉ trace out) ∧ (EvPrintUsage ∉ trace out).
Proof.
  intros Hl out. subst out.
  Initialize_split E s w Hl; rewrite Ht, Hr.
  1-3: split_and!; [by eexists|done|done|set_solver|set_solver].
  destruct (setupCanInterfaces_summary E (with_components c s) w1 c)
    as (Hp & _); [done..|].
  assert (∀ B (f : Event SetupConfigT ActiveT → option B),
            (∀ ev, setup_phase ev = true → f ev = None) →
            omap f (trace (setupCanInterfaces E (with_components c s) w1)) = [])
    as Hnone.
  { intros B f Hf. revert Hp.
    generalize (trace (setupCanInterfaces E (with_components c s) w1)).
    induction 1 as [|ev tr Hev _ IH]; [done|].
    change (omap f (ev :: tr))
      with (match f ev with Some y => y :: omap f tr | None => omap f tr end).
    by rewrite (Hf ev Hev). }
  rewrite Forall_forall in Hp.
  split_and!; [by eexists| | | |].
  - unfold steps. rewrite !omap_app, (Hnone _ step_of) by (by intros []).
    by destruct verdict, ia.
  - rewrite !omap_app, (Hnone _ spawned) by (by intros []).
    by destruct verdict, ia.
  - intros Hin. sift Hin.
  - intros Hin. sift Hin.
Qed.

(** How [main] ends, with the trace of each ending. *)
Lemma main_cases E args s w :
  let out := main E args s w in
  let up := Initialize E NewService w in
  (res out = Ok ExitUsage ∧ trace out = [EvPrintUsage] ∧
   svc out = s ∧ world out = w ∧
   (1 < length args)%nat ∧
   (args !! 1%nat = Some "-h" ∨ args !! 1%nat = Some "--help")) ∨
  (¬ ((1 < length args)%nat ∧
      (args !! 1%nat = Some "-h" ∨ args !! 1%nat = Some "--help")) ∧
   ((∃ e, res up = Ok (Some e) ∧
          res out = Ok (ExitFatal "Failed to initialize service: %v" e) ∧
          trace out = trace up) ∨
    (res up = Ok None ∧
     ∃ e, res out = Ok (ExitFatal "Failed to start service: %v"
                          (Errorf_wrap "failed to start watchdog" e)) ∧
          trace out
          = trace up ++ [EvWatchdogStart (WithCancel Background) (Some e)]) ∨
    (res up = Ok None ∧
     ∃ w', res out = Ok ExitDone ∧
           trace out
           = trace up
             ++ [EvWatchdogStart (WithCancel Background) None;
                 EvGo GoNodeFinder; EvGo GoListenAndServe;
                 EvPrintf "✅ CAN Communication Service started successfully" []]
             ++ [EvAwaitSignal; EvLogPrintln "Shutdown signal received"]
             ++ trace (Stop E (WithTimeout Background (30 * Second))
                         (svc up) w')))).
Proof.
  intros out up. subst out up. unfold main.
  destruct (bool_decide (1 < length args)%nat &&
            bool_decide (args !! 1%nat = Some "-h" ∨ args !! 1%nat = Some "--help"))
    eqn:Hflag.
  { left. apply andb_true_iff in Hflag as [H1%bool_decide_eq_true H2%bool_decide_eq_true].
    shell_run. shell_out. cbv [ret emit]. by cbn. }
  right. split.
  { intros [H1 H2]. apply andb_false_iff in Hflag as [Hf|Hf];
      apply bool_decide_eq_false in Hf; done. }
  shell_run.
  assert (is_Some (logger NewService)) as Hl by (by eexists).
  destruct (Initialize_quiet E NewService w Hl) as ([r Hres] & _).
  pose proof (Initialize_setup_attempts E NewService w Hl) as Hok.
  cbn zeta in Hok.
  rewrite (bind_Ok _ _ _ _ _ Hres). cbn beta iota.
  destruct r as [e|].
  { left. exists e. cbv [ret]. shell_out. cbn. by rewrite app_nil_r. }
  right. destruct (Hok Hres) as (c & Hc & Hi & _).
  set (up := Initialize E NewService w) in *.
  pose proof Hi as (_ & _ & _ & [wd Hwd] & _ & _ & _ & [l Hl']).
  unfold Start. shell_run. shell_call.
  destruct r as [e|]; shell_run.
  { left. split; [done|]. exists e. shell_out. cbv [ret]. cbn.
    by rewrite app_nil_r. }
  right. split; [done|].
  match goal with
  | |- context [bind (Stop _ _) _ _ ?w'] =>
      exists w'; destruct (Stop_run E (WithTimeout Background (30 * Second))
                             (svc up) w' c Hi Hc) as (Hr & Hs & _)
  end.
  rewrite (bind_Ok _ _ _ _ _ Hr), Hs. cbn beta iota. shell_run. shell_out.
  cbv [ret]. cbn [res trace]. split; [done|].
  rewrite <- !app_assoc. cbn [app]. by rewrite app_nil_r.
Qed.


(** X15: [main] ends with the usage text exactly when its first argument
    is -h or --help, and then it has done nothing else: the service and the
    world are untouched. *)
Theorem main_usage_only E args s w :
  let out := main E args s w in
  (res out = Ok ExitUsage ↔
   (1 < length args)%nat ∧
   (args !! 1%nat = Some "-h" ∨ args !! 1%nat = Some "--help")) ∧
  (res out = Ok ExitUsage →
   trace out = [EvPrintUsage] ∧ svc out = s ∧ world out = w).
Proof.
  intros out. subst out.
  destruct (main_cases E args s w)
    as [(Hr & Ht & Hs & Hw & Hflag)
       |(Hflag & [(e & _ & Hr & Ht)
                 |[(_ & e & Hr & Ht)|(_ & w' & Hr & Ht)]])];
    cbn zeta in *; rewrite Hr.
  - by split_and!.
  - split; [by split|done].
  - split; [by split|done].
  - split; [by split|done].
Qed.

(** X16: when [main] ends with a fatal error, no shutdown step has run, no
    goroutine was started and no signal was awaited; after a failed
    [Start] the interfaces whose bring-up was attempted are not torn
    down. *)
Theorem main_fatal_exit E args s w msg err :
  let out := main E args s w in
  res out = Ok (ExitFatal msg err) →
  steps (trace out) = [] ∧ omap spawned (trace out) = [] ∧
  (EvAwaitSignal ∉ trace out) ∧
  (msg = "Failed to initialize service: %v" ∨
   msg = "Failed to start service: %v" ∧
   ∃ c, EvParseConfig (inl c) ∈ trace out ∧
        setup_attempts (trace out) = CanPorts c ∧
        teardown_attempts (trace out) = []).
Proof.
  intros out Hfatal. subst out.
  assert (is_Some (logger NewService)) as Hl by (by eexists).
  destruct (Initialize_quiet E NewService w Hl) as (_ & Hst & Hsp & Hsig & _).
  destruct (main_cases E args s w)
    as [(Hr & _)
       |(_ & [(e & _ & Hr & Ht)
             |[(Hup & e & Hr & Ht)|(_ & w' & Hr & _)]])];
    cbn zeta in *; rewrite Hr in Hfatal; simplify_eq.
  - rewrite Ht. split_and!; [done..|by left].
  - destruct (Initialize_setup_attempts E NewService w Hl Hup)
      as (c & Hc & _ & Ha & _).
    destruct (Initialize_initialized E NewService w Hl Hup)
      as (_ & c' & Hc' & Hin).
    rewrite Ht. unfold steps in *. rewrite !omap_app, Hst, Hsp.
    split_and!; [done|done|set_solver|]. right. split; [done|].
    exists c. split_and!.
    + assert (c' = c) as <- by congruence. set_solver.
    + unfold setup_attempts in *. rewrite omap_app, Ha. cbn.
      by rewrite app_nil_r.
    + rewrite teardown_attempts_steps. unfold steps.
      by rewrite omap_app, Hst.
Qed.

(** X17: when [main] ends normally, the shutdown steps are the watchdog
    stop, the HTTP shutdown under the 30 second context, the cleanup and
    the teardown of every configured port, all of them after the signal was
    awaited, and the HTTP listener had been started before. *)
Theorem main_clean_exit E args s w :
  let out := main E args s w in
  res out = Ok ExitDone →
  ∃ c before after,
    EvParseConfig (inl c) ∈ before ∧
    EvGo GoListenAndServe ∈ before ∧
    trace out = before ++ EvAwaitSignal :: after ∧
    steps before = [] ∧
    steps after
    = [StepWatchdogStop;
       StepShutdown (WithTimeout Background (30 * Second)); StepCleanup]
      ++ (StepTeardown <$> CanPorts c).
Proof.
  intros out Hdone. subst out.
  assert (is_Some (logger NewService)) as Hl by (by eexists).
  destruct (Initialize_quiet E NewService w Hl) as (_ & Hst & _).
  destruct (main_cases E args s w)
    as [(Hr & _)
       |(_ & [(e & _ & Hr & _)
             |[(_ & e & Hr & _)|(Hup & w' & _ & Ht)]])];
    cbn zeta in *; try (rewrite Hr in Hdone; discriminate).
  destruct (Initialize_initialized E NewService w Hl Hup)
    as (Hi & c & Hc & Hin).
  destruct (Stop_run E (WithTimeout Background (30 * Second))
              (svc (Initialize E NewService w)) w' c Hi Hc) as (_ & _ & Hsteps).
  exists c. eexists (_ ++ [_; _; _; _]), (_ :: _).
  split_and!; [| |by rewrite Ht, <- app_assoc| |].
  - set_solver.
  - set_solver.
  - unfold steps in *. by rewrite omap_app, Hst.
  - done.
Qed.

End Proofs.

(** * Scripted runs *)

Ltac by_run := vm_compute; repeat econstructor.

Example int_incr_small : int_incr 5 = 6.
Proof. reflexivity. Qed.

Example int_incr_wraps : int_incr (2 ^ 63 - 1) = - 2 ^ 63.
Proof. reflexivity. Qed.

Example shutdown_deadline :
  deadline (WithTimeout Background (30 * Second)) = Some 30000000000.
Proof. reflexivity. Qed.

Example setup_all_up :
  res (setupCanInterfaces (scripted all_good)
         (with_components {| CanPorts := ["can0"; "can1"]; Port := "5260" |}
            NewService) 0%nat)
  = Ok None.
Proof. by vm_compute. Qed.

Example setup_partial :
  res (setupCanInterfaces (scripted middle_bad)
         (with_components three_ports NewService) 0%nat)
  = Ok (Some "partial setup failure: [can1: setup can1 failed]").
Proof. by vm_compute. Qed.

Example setup_none_up :
  res (setupCanInterfaces (scripted none_up)
         (with_components {| CanPorts := ["can0"]; Port := "5260" |}
            NewService) 0%nat)
  = Ok (Some "failed to setup any CAN interfaces: [can0: setup can0 failed]").
Proof. by vm_compute. Qed.

Example Initialize_rejected_setup_config :
  res (Initialize (scripted bad_setup_config) NewService 0%nat)
  = Ok (Some ("failed to initialize components: "
              +:+ "setup configuration validation failed: "
              +:+ "max retries must be positive")) ∧
  monitor (started bad_setup_config) = None ∧
  is_Some (setupManager (started bad_setup_config)).
Proof. split_and!; by_run. Qed.

Example main_usage :
  let out := main (scripted all_good) ["can-bridge"; "--help"] NewService 0%nat in
  res out = Ok ExitUsage ∧ trace out = [EvPrintUsage].
Proof. by vm_compute. Qed.

Example main_rejected_setup_config :
  res (main (scripted bad_setup_config) ["can-bridge"] NewService 0%nat)
  = Ok (ExitFatal "Failed to initialize service: %v"
          ("failed to initialize components: "
           +:+ "setup configuration validation failed: "
           +:+ "max retries must be positive")).
Proof. by vm_compute. Qed.

Example main_full_run :
  let out := main (scripted middle_bad) ["can-bridge"] NewService 0%nat in
  res out = Ok ExitDone ∧
  steps (trace out)
  = [StepWatchdogStop;
     StepShutdown (WithTimeout Background (30 * Second));
     StepCleanup;
     StepTeardown "can0"; StepTeardown "can1"; StepTeardown "can2"].
Proof. by vm_compute. Qed.

(** [Stop] on a service that was never initialized goes through the nil
    watchdog pointer. *)
Example Stop_uninitialized :
  res (Stop (scripted all_good) Background NewService 0%nat) = Panic.
Proof. by vm_compute. Qed.

(** * The theorems at work on scripted runs *)




Lemma Stop_fault_tolerant_witness :
  let s := started middle_bad in
  let out := Stop (scripted middle_bad) Background s (started_world middle_bad) in
  let tr := trace out in
  initialized s ∧ config s = Some three_ports ∧
  res out = Ok None ∧
  (tr = firstn 1 tr ++ EvWatchdogStop (Some "watchdog not running")
                       :: skipn 2 tr ∧
   steps (skipn 2 tr)
   = [StepShutdown Background; StepCleanup]
     ++ (StepTeardown <$> CanPorts three_ports)) ∧
  (tr = firstn 3 tr ++ EvShutdown Background (Some "context deadline exceeded")
                       :: skipn 4 tr ∧
   steps (skipn 4 tr)
   = [StepCleanup] ++ (StepTeardown <$> CanPorts three_ports)) ∧
  (tr = firstn 8 tr ++ EvTeardownInterface "can1" (Some "teardown can1 failed")
                       :: skipn 9 tr ∧
   ∃ before after,
     CanPorts three_ports = before ++ "can1" :: after ∧
     steps (skipn 9 tr) = StepTeardown <$> after).
Proof.
  intros s out tr.
  assert (initialized s) as H1 by (vm_compute; split_and!; by eexists).
  assert (config s = Some three_ports) as H2 by by_run.
  destruct (Stop_fault_tolerant (scripted middle_bad) Background s
              (started_world middle_bad) three_ports H1 H2) as [Hr Hlater].
  assert (tr = firstn 1 tr ++ EvWatchdogStop (Some "watchdog not running")
                              :: skipn 2 tr) as Hw by (by vm_compute).
  assert (tr = firstn 3 tr
               ++ EvShutdown Background (Some "context deadline exceeded")
                  :: skipn 4 tr) as Hh by (by vm_compute).
  assert (tr = firstn 8 tr
               ++ EvTeardownInterface "can1" (Some "teardown can1 failed")
                  :: skipn 9 tr) as Ht by (by vm_compute).
  split; [exact H1|]. split; [exact H2|]. split; [exact Hr|].
  split; [exact (conj Hw (Hlater _ _ _ Hw))|].
  split; [exact (conj Hh (Hlater _ _ _ Hh))|].
  exact (conj Ht (Hlater _ _ _ Ht)).
Defined.

Lemma teardown_attempts_every_port_witness :
  let s := started middle_bad in
  let out := teardownCanInterfaces (scripted middle_bad) s 0%nat in
  let failed := EvTeardownInterface "can1" (Some "teardown can1 failed") in
  is_Some (logger s) ∧ is_Some (setupManager s) ∧
  config s = Some three_ports ∧
  trace out = firstn 2 (trace out) ++ failed :: skipn 3 (trace out) ∧
  res out = Ok tt ∧
  teardown_attempts (trace out) = ["can0"; "can1"; "can2"] ∧
  CanPorts three_ports
  = teardown_attempts (firstn 2 (trace out))
    ++ "can1" :: teardown_attempts (skipn 3 (trace out)) ∧
  teardown_attempts (skipn 3 (trace out)) = ["can2"].
Proof.
  intros s out failed.
  assert (is_Some (logger s)) as H1 by by_run.
  assert (is_Some (setupManager s)) as H2 by by_run.
  assert (config s = Some three_ports) as H3 by by_run.
  assert (trace out = firstn 2 (trace out) ++ failed :: skipn 3 (trace out))
    as H4 by (by vm_compute).
  destruct (teardown_attempts_every_port (scripted middle_bad) s 0%nat
              three_ports H1 H2 H3) as (Hr & Ha & Hcut).
  split; [exact H1|]. split; [exact H2|]. split; [exact H3|].
  split; [exact H4|]. split; [exact Hr|]. split; [exact Ha|].
  split; [exact (Hcut _ _ _ _ H4)|]. by vm_compute.
Defined.

Lemma ValidateSetupConfig_before_interfaces_witness :
  (let out := Initialize (scripted bad_setup_config) NewService 0%nat in
   is_Some (logger NewService) ∧
   EvValidateSetupConfig (Some "max retries must be positive") ∈ trace out ∧
   (∃ e, res out = Ok (Some e)) ∧
   Forall (λ ev, interface_op ev = false) (trace out)) ∧
  (let out := Initialize (scripted middle_bad) NewService 0%nat in
   let listing := EvGetAvailableInterfaces (inr "ip link: exit status 1") in
   trace out = firstn 8 (trace out) ++ listing :: skipn 9 (trace out) ∧
   interface_op listing = true ∧
   ∃ r, EvValidateSetupConfig r ∈ firstn 8 (trace out)).
Proof.
  assert (is_Some (logger NewService)) as H1 by by_run.
  split.
  - intros out.
    assert (EvValidateSetupConfig (Some "max retries must be positive")
            ∈ trace out) as H2 by by_run.
    split; [exact H1|]. split; [exact H2|].
    exact (proj2 (ValidateSetupConfig_before_interfaces
                    (scripted bad_setup_config) NewService 0%nat H1) _ H2).
  - intros out listing.
    assert (trace out = firstn 8 (trace out) ++ listing :: skipn 9 (trace out))
      as H2 by (by vm_compute).
    assert (interface_op listing = true) as H3 by reflexivity.
    split; [exact H2|]. split; [exact H3|].
    exact (proj1 (ValidateSetupConfig_before_interfaces
                    (scripted middle_bad) NewService 0%nat H1) _ _ _ H2 H3).
Defined.

Lemma setup_attempts_every_port_witness :
  let s := with_components three_ports NewService in
  let out := setupCanInterfaces (scripted middle_bad) s 0%nat in
  let failed := EvSetupInterfaceWithRetry "can1" (Some "setup can1 failed") in
  is_Some (logger s) ∧ is_Some (setupManager s) ∧
  config s = Some three_ports ∧
  trace out = firstn 9 (trace out) ++ failed :: skipn 10 (trace out) ∧
  setup_attempts (trace out) = ["can0"; "can1"; "can2"] ∧
  CanPorts three_ports
  = setup_attempts (firstn 9 (trace out))
    ++ "can1" :: setup_attempts (skipn 10 (trace out)) ∧
  setup_attempts (skipn 10 (trace out)) = ["can2"].
Proof.
  intros s out failed.
  assert (is_Some (logger s)) as H1 by by_run.
  assert (is_Some (setupManager s)) as H2 by by_run.
  assert (config s = Some three_ports) as H3 by by_run.
  assert (trace out = firstn 9 (trace out) ++ failed :: skipn 10 (trace out))
    as H4 by (by vm_compute).
  destruct (setup_attempts_every_port (scripted middle_bad) s 0%nat
              three_ports H1 H2 H3) as [Ha Hcut].
  split; [exact H1|]. split; [exact H2|]. split; [exact H3|].
  split; [exact H4|]. split; [exact Ha|].
  split; [exact (Hcut _ _ _ _ H4)|]. by vm_compute.
Defined.

Lemma InitializeAll_error_not_fatal_witness :
  let out := Initialize (scripted middle_bad) NewService 0%nat in
  is_Some (logger NewService) ∧
  EvInitializeAll (Some "failed to initialize can1") ∈ trace out ∧
  res out = Ok None ∧
  EvPrintf "Warning: %v" [AErr "failed to initialize can1"] ∈ trace out ∧
  EvSetupRoutes ∈ trace out ∧
  is_Some (server (svc out)).
Proof.
  intros out.
  assert (is_Some (logger NewService)) as H1 by by_run.
  assert (EvInitializeAll (Some "failed to initialize can1") ∈ trace out)
    as H2 by by_run.
  split; [exact H1|]. split; [exact H2|].
  exact (InitializeAll_error_not_fatal (scripted middle_bad) NewService 0%nat
           _ H1 H2).
Defined.

Lemma listing_failure_not_fatal_witness :
  let s := with_components three_ports NewService in
  let out := setupCanInterfaces (scripted middle_bad) s 0%nat in
  is_Some (logger s) ∧ is_Some (setupManager s) ∧
  config s = Some three_ports ∧
  EvGetAvailableInterfaces (inr "ip link: exit status 1") ∈ trace out ∧
  EvPrintf "⚠️ Warning: could not list available interfaces: %v"
    [AErr "ip link: exit status 1"] ∈ trace out ∧
  setup_attempts (trace out) = CanPorts three_ports ∧
  res (setupCanInterfaces
         (with_listing (λ _, inl ["can0"]) (scripted middle_bad)) s 0%nat)
  = res out.
Proof.
  intros s out.
  assert (is_Some (logger s)) as H1 by by_run.
  assert (is_Some (setupManager s)) as H2 by by_run.
  assert (config s = Some three_ports) as H3 by by_run.
  assert (EvGetAvailableInterfaces (inr "ip link: exit status 1") ∈ trace out)
    as H4 by by_run.
  destruct (listing_failure_not_fatal (scripted middle_bad) s 0%nat
              three_ports H1 H2 H3) as [Hlog Hsame].
  destruct (Hlog _ H4) as [Hw Ha].
  split_and!; [exact H1|exact H2|exact H3|exact H4|exact Hw|exact Ha|].
  exact (proj1 (Hsame _)).
Defined.

Lemma GetStatus_always_answers_witness :
  (GetStatus (scripted all_good) NewService 0%nat
   = {| res := Ok {["status" := VString "not_initialized"]};
        svc := NewService; world := 0%nat; trace := [] |}) ∧
  (let s := started bad_setup_config in
   monitor s = None ∧
   GetStatus (scripted bad_setup_config) s 3%nat
   = {| res := Ok {["status" := VString "not_initialized"]};
        svc := s; world := 3%nat; trace := [] |}) ∧
  let s := started middle_bad in
  let out := GetStatus (scripted middle_bad) s 0%nat in
  is_Some (monitor s) ∧ config_first s ∧ is_Some (setupManager s) ∧
  ∃ m setup ist,
    res out = Ok m ∧
    m !! "status" = Some (VString "running") ∧
    m !! "setup" = Some (VMap setup) ∧
    setup !! "interfaceStates" = Some (VMap ist) ∧
    ist !! "can1" = Some (VMap {["error" := VString "query can1 failed"]}).
Proof.
  split; [|split].
  - exact (proj1 (GetStatus_always_answers (scripted all_good) NewService 0%nat)
             eq_refl).
  - intros s.
    assert (monitor s = None) as H1 by (by vm_compute).
    split; [exact H1|].
    exact (proj1 (GetStatus_always_answers (scripted bad_setup_config) s 3%nat)
             H1).
  - intros s out.
    assert (is_Some (monitor s)) as H1 by by_run.
    assert (config_first s) as H2 by (intros _; by_run).
    assert (is_Some (setupManager s)) as H3 by by_run.
    destruct (proj2 (GetStatus_always_answers (scripted middle_bad) s 0%nat)
                H1 H2)
      as (m & setup & Hr & _ & Hst & Hsetup & _ & Hist).
    destruct (Hist H3) as (ist & cfg & _ & Hi & Hq & _).
    split_and!; [done..|]. exists m, setup, ist. split_and!; [done..|].
    rewrite Hq. by vm_compute.
Defined.

(** * The further properties on scripted runs *)

Lemma setupCanInterfaces_none_usable_witness :
  let s := with_components {| CanPorts := []; Port := "5260" |} NewService in
  let out := setupCanInterfaces (scripted no_ports) s 0%nat in
  is_Some (logger s) ∧ is_Some (setupManager s) ∧
  Forall (λ o, is_Some o.2) (setup_outcomes (trace out)) ∧
  setup_outcomes (trace out) = [] ∧
  res out = Ok (Some "failed to setup any CAN interfaces: []").
Proof.
  intros s out.
  assert (is_Some (logger s)) as H1 by by_run.
  assert (is_Some (setupManager s)) as H2 by by_run.
  assert (config s = Some {| CanPorts := []; Port := "5260" |}) as H3
    by reflexivity.
  destruct (setupCanInterfaces_none_usable (scripted no_ports) s 0%nat _
              H1 H2 H3) as [Hnil Hall].
  assert (Forall (λ o, is_Some o.2) (setup_outcomes (trace out))) as H4
    by by_run.
  split; [exact H1|]. split; [exact H2|]. split; [exact H4|].
  split; [exact (Hnil eq_refl)|]. exact (proj1 (Hall H4)).
Defined.

Lemma setupCanInterfaces_verdict_witness :
  let s := with_components three_ports NewService in
  let out := setupCanInterfaces (scripted middle_bad) s 0%nat in
  is_Some (logger s) ∧ is_Some (setupManager s) ∧
  config s = Some three_ports ∧
  Z.of_nat (length (CanPorts three_ports)) < 2 ^ 63 ∧
  Exists (λ o, o.2 = None) (setup_outcomes (trace out)) ∧
  Exists (λ o, is_Some o.2) (setup_outcomes (trace out)) ∧
  res out = Ok (Some "partial setup failure: [can1: setup can1 failed]").
Proof.
  intros s out.
  assert (is_Some (logger s)) as H1 by by_run.
  assert (is_Some (setupManager s)) as H2 by by_run.
  assert (config s = Some three_ports) as H3 by reflexivity.
  assert (Z.of_nat (length (CanPorts three_ports)) < 2 ^ 63) as H4
    by (vm_compute; reflexivity).
  assert (Exists (λ o, o.2 = None) (setup_outcomes (trace out))) as H5
    by (vm_compute; apply Exists_cons_hd; reflexivity).
  assert (Exists (λ o, is_Some o.2) (setup_outcomes (trace out))) as H6
    by (vm_compute; apply Exists_cons_tl, Exists_cons_hd; eexists;
        reflexivity).
  destruct (setupCanInterfaces_verdict (scripted middle_bad) s 0%nat
              three_ports H1 H2 H3 H4) as (_ & _ & Hpartial).
  split; [exact H1|]. split; [exact H2|]. split; [exact H3|].
  split; [exact H4|]. split; [exact H5|]. split; [exact H6|].
  exact (Hpartial H5 H6).
Defined.

Lemma state_verified_after_success_witness :
  let s := with_components three_ports NewService in
  let out := setupCanInterfaces (scripted middle_bad) s 0%nat in
  is_Some (logger s) ∧ is_Some (setupManager s) ∧
  config s = Some three_ports ∧
  state_queries (trace out) = ["can0"; "can2"].
Proof.
  intros s out.
  assert (is_Some (logger s)) as H1 by by_run.
  assert (is_Some (setupManager s)) as H2 by by_run.
  assert (config s = Some three_ports) as H3 by reflexivity.
  split; [exact H1|]. split; [exact H2|]. split; [exact H3|].
  exact (proj1 (state_verified_after_success (scripted middle_bad) s 0%nat
                  three_ports H1 H2 H3)).
Defined.

Lemma state_verification_not_decisive_witness :
  let s := with_components three_ports NewService in
  let E := scripted middle_bad in
  is_Some (logger s) ∧ is_Some (setupManager s) ∧
  config s = Some three_ports ∧
  res (setupCanInterfaces (with_states (λ _ _, inr "no such device") E) s 0%nat)
  = res (setupCanInterfaces E s 0%nat).
Proof.
  intros s E.
  assert (is_Some (logger s)) as H1 by by_run.
  assert (is_Some (setupManager s)) as H2 by by_run.
  assert (config s = Some three_ports) as H3 by reflexivity.
  split; [exact H1|]. split; [exact H2|]. split; [exact H3|].
  exact (proj1 (state_verification_not_decisive E _ s 0%nat three_ports
                  H1 H2 H3)).
Defined.

Lemma Initialize_rejects_configuration_witness :
  is_Some (logger NewService) ∧
  (let out := Initialize (unparsable all_good) NewService 0%nat in
   EvParseConfig (inr "CAN_PORTS is empty") ∈ trace out ∧
   res out = Ok (Some "failed to parse configuration: CAN_PORTS is empty") ∧
   trace out = [EvParseConfig (inr "CAN_PORTS is empty")] ∧
   svc out = NewService) ∧
  (let out := Initialize (rejected none_up) NewService 0%nat in
   let c := {| CanPorts := ["can0"]; Port := "5260" |} in
   EvValidateConfig c (Some "invalid port") ∈ trace out ∧
   res out = Ok (Some "configuration validation failed: invalid port") ∧
   trace out = [EvParseConfig (inl c); EvValidateConfig c (Some "invalid port")] ∧
   svc out = NewService).
Proof.
  assert (is_Some (logger NewService)) as H1 by by_run.
  split; [exact H1|]. split.
  - intros out.
    assert (EvParseConfig (inr "CAN_PORTS is empty") ∈ trace out) as H2
      by by_run.
    split; [exact H2|].
    exact (proj1 (Initialize_rejects_configuration (unparsable all_good)
                    NewService 0%nat H1) _ H2).
  - intros out c.
    assert (EvValidateConfig c (Some "invalid port") ∈ trace out) as H2
      by by_run.
    split; [exact H2|].
    exact (proj2 (Initialize_rejects_configuration (rejected none_up)
                    NewService 0%nat H1) _ _ H2).
Defined.

Lemma Initialize_final_state_witness :
  is_Some (logger NewService) ∧
  (let out := Initialize (scripted middle_bad) NewService 0%nat in
   res out = Ok None ∧
   ∃ c, EvParseConfig (inl c) ∈ trace out ∧
        config (svc out) = Some c ∧
        configProvider (svc out) = Some (NewDefaultConfigProvider c) ∧
        setupManager (svc out) = Some NewInterfaceSetupManager ∧
        interfaceManager (svc out) = Some NewInterfaceManager ∧
        messageSender (svc out) = Some NewMessageSender ∧
        watchdog (svc out) = Some NewWatchdog ∧
        monitor (svc out) = Some NewMonitor ∧
        apiHandler (svc out) = Some NewAPIHandlerWithSetup ∧
        server (svc out)
        = Some {| Addr := ":" +:+ Port c; ReadTimeout := 5000000000;
                  WriteTimeout := 10000000000; IdleTimeout := 120000000000 |} ∧
        initialized (svc out)) ∧
  (let out := Initialize (scripted bad_setup_config) NewService 0%nat in
   (∃ e, res out = Ok (Some e)) ∧
   interfaceManager (svc out) = None ∧ messageSender (svc out) = None ∧
   watchdog (svc out) = None ∧ monitor (svc out) = None ∧
   apiHandler (svc out) = None ∧ server (svc out) = None).
Proof.
  assert (is_Some (logger NewService)) as H1 by by_run.
  split; [exact H1|]. split.
  - intros out.
    assert (res out = Ok None) as H2 by (by vm_compute).
    split; [exact H2|].
    exact (proj1 (Initialize_final_state (scripted middle_bad) NewService
                    0%nat H1) H2).
  - intros out.
    assert (res out
            = Ok (Some ("failed to initialize components: "
                        +:+ "setup configuration validation failed: "
                        +:+ "max retries must be positive"))) as H2
      by (by vm_compute).
    split; [by eexists|].
    exact (proj1 (proj2 (Initialize_final_state (scripted bad_setup_config)
                           NewService 0%nat H1)) _ H2).
Defined.

Lemma InitializeAll_after_bring_up_witness :
  is_Some (logger NewService) ∧
  (let out := Initialize (scripted middle_bad) NewService 0%nat in
   let tr := trace out in
   res out = Ok None ∧
   (∃ pre r post, tr = pre ++ EvInitializeAll r :: post) ∧
   tr = firstn 25 tr ++ EvInitializeAll (Some "failed to initialize can1")
                        :: skipn 26 tr ∧
   ∃ c, config (svc out) = Some c ∧
        setup_attempts (firstn 25 tr) = CanPorts c ∧
        setup_attempts (skipn 26 tr) = [] ∧
        (∀ ev, ev ∈ firstn 25 tr ++ skipn 26 tr →
               ∀ r', ev ≠ EvInitializeAll r') ∧
        EvSetupRoutes ∈ skipn 26 tr) ∧
  (let out := Initialize (scripted bad_setup_config) NewService 0%nat in
   (∃ e, res out = Ok (Some e)) ∧
   ∀ r, EvInitializeAll r ∉ trace out).
Proof.
  assert (is_Some (logger NewService)) as H1 by by_run.
  split; [exact H1|]. split.
  - intros out tr.
    assert (res out = Ok None) as H2 by (by vm_compute).
    assert (tr = firstn 25 tr
                 ++ EvInitializeAll (Some "failed to initialize can1")
                    :: skipn 26 tr) as H3 by (by vm_compute).
    destruct (InitializeAll_after_bring_up (scripted middle_bad) NewService
                0%nat H1) as (Hcall & _ & Hcut).
    split; [exact H2|]. split; [exact (Hcall H2)|]. split; [exact H3|].
    exact (proj2 (Hcut _ _ _ H3)).
  - intros out.
    assert (res out
            = Ok (Some ("failed to initialize components: "
                        +:+ "setup configuration validation failed: "
                        +:+ "max retries must be positive"))) as H2
      by (by vm_compute).
    split; [by eexists|].
    exact (proj1 (proj2 (InitializeAll_after_bring_up
                           (scripted bad_setup_config) NewService 0%nat H1))
             _ H2).
Defined.

Lemma Initialize_logs_failures_witness :
  let tr := trace (Initialize (scripted middle_bad) NewService 0%nat) in
  let failed := EvSetupInterfaceWithRetry "can1" (Some "setup can1 failed") in
  let line := EvPrintf "❌ Failed to setup %s: %v"
                [AStr "can1"; AErr "setup can1 failed"] in
  is_Some (logger NewService) ∧
  tr = firstn 16 tr ++ failed :: skipn 17 tr ∧
  warning_for failed = Some line ∧
  ∃ post', skipn 17 tr = line :: post'.
Proof.
  intros tr failed line.
  assert (is_Some (logger NewService)) as H1 by by_run.
  assert (tr = firstn 16 tr ++ failed :: skipn 17 tr) as H2 by (by vm_compute).
  assert (warning_for failed = Some line) as H3 by reflexivity.
  split; [exact H1|]. split; [exact H2|]. split; [exact H3|].
  exact (Initialize_logs_failures (scripted middle_bad) NewService 0%nat
           _ _ _ _ H1 H2 H3).
Defined.

Lemma Stop_logs_failures_witness :
  let s := started middle_bad in
  let tr := trace (Stop (scripted middle_bad) Background s
                     (started_world middle_bad)) in
  let failed := EvShutdown Background (Some "context deadline exceeded") in
  let line := EvPrintf "Warning: HTTP server shutdown error: %v"
                [AErr "context deadline exceeded"] in
  initialized s ∧ config s = Some three_ports ∧
  tr = firstn 3 tr ++ failed :: skipn 4 tr ∧
  warning_for failed = Some line ∧
  ∃ post', skipn 4 tr = line :: post'.
Proof.
  intros s tr failed line.
  assert (initialized s) as H1 by (vm_compute; split_and!; by eexists).
  assert (config s = Some three_ports) as H2 by by_run.
  assert (tr = firstn 3 tr ++ failed :: skipn 4 tr) as H3 by (by vm_compute).
  assert (warning_for failed = Some line) as H4 by reflexivity.
  split; [exact H1|]. split; [exact H2|]. split; [exact H3|].
  split; [exact H4|].
  exact (Stop_logs_failures (scripted middle_bad) Background s
           (started_world middle_bad) three_ports _ _ _ _ H1 H2 H3 H4).
Defined.

Lemma Start_outcomes_witness :
  let s := started all_good in
  let ctx := WithCancel Background in
  is_Some (logger s) ∧ is_Some (watchdog s) ∧
  (let out := Start (watchdog_down all_good) ctx s 0%nat in
   EvWatchdogStart ctx (Some "watchdog already running") ∈ trace out ∧
   res out = Ok (Some "failed to start watchdog: watchdog already running") ∧
   omap spawned (trace out) = []) ∧
  (let out := Start (scripted all_good) ctx s 0%nat in
   EvWatchdogStart ctx None ∈ trace out ∧
   res out = Ok None ∧
   omap spawned (trace out) = [GoNodeFinder; GoListenAndServe]).
Proof.
  intros s ctx.
  assert (is_Some (logger s)) as H1 by by_run.
  assert (is_Some (watchdog s)) as H2 by by_run.
  split; [exact H1|]. split; [exact H2|]. split.
  - intros out.
    assert (EvWatchdogStart ctx (Some "watchdog already running") ∈ trace out)
      as H3 by by_run.
    split; [exact H3|].
    exact (proj1 (proj2 (proj2 (Start_outcomes (watchdog_down all_good) ctx s
                                  0%nat H1 H2))) _ H3).
  - intros out.
    assert (EvWatchdogStart ctx None ∈ trace out) as H3 by by_run.
    split; [exact H3|].
    exact (proj2 (proj2 (proj2 (Start_outcomes (scripted all_good) ctx s
                                  0%nat H1 H2))) H3).
Defined.

Lemma Stop_skips_missing_components_witness :
  let s := with_components three_ports NewService in
  let out := Stop (scripted middle_bad) Background s 0%nat in
  is_Some (logger s) ∧ is_Some (watchdog s) ∧ config_first s ∧
  server s = None ∧
  res out = Ok None ∧
  steps (trace out)
  = [StepWatchdogStop; StepCleanup;
     StepTeardown "can0"; StepTeardown "can1"; StepTeardown "can2"].
Proof.
  intros s out.
  assert (is_Some (logger s)) as H1 by by_run.
  assert (is_Some (watchdog s)) as H2 by by_run.
  assert (config_first s) as H3 by (intros _; by_run).
  destruct (Stop_skips_missing_components (scripted middle_bad) Background s
              0%nat H1 H2 H3) as (Hr & _ & Hst).
  split; [exact H1|]. split; [exact H2|]. split; [exact H3|].
  split; [reflexivity|]. split; [exact Hr|]. exact Hst.
Defined.

Lemma Stop_tears_down_what_startup_attempted_witness :
  let up := Initialize (scripted middle_bad) NewService 0%nat in
  let down := Stop (scripted middle_bad) Background (svc up) (world up) in
  is_Some (logger NewService) ∧ res up = Ok None ∧
  res down = Ok None ∧
  teardown_attempts (trace down) = setup_attempts (trace up) ∧
  setup_attempts (trace up) = ["can0"; "can1"; "can2"].
Proof.
  intros up down.
  assert (is_Some (logger NewService)) as H1 by by_run.
  assert (res up = Ok None) as H2 by (by vm_compute).
  destruct (Stop_tears_down_what_startup_attempted (scripted middle_bad)
              NewService 0%nat Background (world up) H1 H2) as [Hr Ha].
  split; [exact H1|]. split; [exact H2|]. split; [exact Hr|].
  split; [exact Ha|]. by vm_compute.
Defined.

Lemma GetStatus_after_Initialize_witness :
  is_Some (logger NewService) ∧ monitor NewService = None ∧
  (let up := Initialize (scripted bad_setup_config) NewService 0%nat in
   (∃ e, res up = Ok (Some e)) ∧
   res (GetStatus (scripted bad_setup_config) (svc up) (world up))
   = Ok {["status" := VString "not_initialized"]}) ∧
  (let up := Initialize (scripted all_good) NewService 0%nat in
   res up = Ok None ∧
   ∃ m, res (GetStatus (scripted all_good) (svc up) (world up)) = Ok m ∧
        m !! "status" = Some (VString "running")).
Proof.
  assert (is_Some (logger NewService)) as H1 by by_run.
  assert (monitor NewService = None) as H2 by reflexivity.
  split; [exact H1|]. split; [exact H2|]. split.
  - intros up.
    assert (res up
            = Ok (Some ("failed to initialize components: "
                        +:+ "setup configuration validation failed: "
                        +:+ "max retries must be positive"))) as H3
      by (by vm_compute).
    split; [by eexists|].
    exact (proj1 (proj1 (GetStatus_after_Initialize (scripted bad_setup_config)
                           NewService 0%nat (world up) H1 H2) _ H3)).
  - intros up.
    assert (res up = Ok None) as H3 by (by vm_compute).
    split; [exact H3|].
    exact (proj2 (GetStatus_after_Initialize (scripted all_good)
                    NewService 0%nat (world up) H1 H2) H3).
Defined.

Lemma GetStatus_report_witness :
  let s := started middle_bad in
  let out := GetStatus (scripted middle_bad) s (started_world middle_bad) in
  is_Some (monitor s) ∧ config_first s ∧
  ∃ m, res out = Ok m ∧
    dom m = {["status"; "uptime"; "activeInterfaces"; "watchdogRunning";
              "setup"]} ∧
    m !! "uptime" = Some (VString "1m30s") ∧
    m !! "activeInterfaces" = Some (VActive ["can0"; "can2"]) ∧
    m !! "watchdogRunning" = Some (VBool true).
Proof.
  intros s out.
  assert (is_Some (monitor s)) as H1 by by_run.
  assert (config_first s) as H2 by (intros _; by_run).
  split; [exact H1|]. split; [exact H2|].
  exact (GetStatus_report (scripted middle_bad) s (started_world middle_bad)
           H1 H2).
Defined.

Lemma GetStatus_queries_each_port_witness :
  (let s := started middle_bad in
   let out := GetStatus (scripted middle_bad) s (started_world middle_bad) in
   is_Some (monitor s) ∧ config_first s ∧ is_Some (setupManager s) ∧
   svc out = s ∧ state_queries (trace out) = ["can0"; "can1"; "can2"]) ∧
  (let s := set_setupManager None (started middle_bad) in
   let out := GetStatus (scripted middle_bad) s 0%nat in
   is_Some (monitor s) ∧ config_first s ∧ setupManager s = None ∧
   length (trace out) = 1%nat).
Proof.
  split.
  - intros s out.
    assert (is_Some (monitor s)) as H1 by by_run.
    assert (config_first s) as H2 by (intros _; by_run).
    assert (is_Some (setupManager s)) as H3 by by_run.
    destruct (GetStatus_queries_each_port (scripted middle_bad) s
                (started_world middle_bad) H1 H2) as (Hs & _ & Hsome).
    split; [exact H1|]. split; [exact H2|]. split; [exact H3|].
    split; [exact Hs|]. by vm_compute.
  - intros s out.
    assert (is_Some (monitor s)) as H1 by by_run.
    assert (config_first s) as H2 by (by intros [? ?]).
    assert (setupManager s = None) as H3 by reflexivity.
    destruct (GetStatus_queries_each_port (scripted middle_bad) s 0%nat H1 H2)
      as (_ & Hnone & _).
    destruct (Hnone H3) as [Ht _].
    split; [exact H1|]. split; [exact H2|]. split; [exact H3|].
    subst out. by rewrite Ht.
Defined.

Lemma main_usage_only_witness :
  let out := main (scripted all_good) ["can-bridge"; "-h"] NewService 0%nat in
  res out = Ok ExitUsage ∧
  trace out = [EvPrintUsage] ∧ svc out = NewService ∧ world out = 0%nat.
Proof.
  intros out.
  assert (res out = Ok ExitUsage) as H1.
  { apply (proj1 (main_usage_only (scripted all_good) ["can-bridge"; "-h"]
                    NewService 0%nat)).
    split; [vm_compute; lia|by left]. }
  split; [exact H1|].
  exact (proj2 (main_usage_only (scripted all_good) ["can-bridge"; "-h"]
                  NewService 0%nat) H1).
Defined.

Lemma main_fatal_exit_witness :
  let out := main (watchdog_down middle_bad) ["can-bridge"] NewService 0%nat in
  res out
  = Ok (ExitFatal "Failed to start service: %v"
          ("failed to start watchdog: " +:+ "watchdog already running")) ∧
  steps (trace out) = [] ∧ omap spawned (trace out) = [] ∧
  setup_attempts (trace out) = ["can0"; "can1"; "can2"] ∧
  teardown_attempts (trace out) = [].
Proof.
  intros out.
  assert (res out
          = Ok (ExitFatal "Failed to start service: %v"
                  ("failed to start watchdog: " +:+ "watchdog already running")))
    as H1 by (by vm_compute).
  destruct (main_fatal_exit (watchdog_down middle_bad) ["can-bridge"]
              NewService 0%nat _ _ H1) as (Hst & Hsp & _ & _).
  split; [exact H1|]. split; [exact Hst|]. split; [exact Hsp|].
  by vm_compute.
Defined.

Lemma main_clean_exit_witness :
  let out := main (scripted middle_bad) ["can-bridge"] NewService 0%nat in
  res out = Ok ExitDone ∧
  ∃ c before after,
    EvParseConfig (inl c) ∈ before ∧
    EvGo GoListenAndServe ∈ before ∧
    trace out = before ++ EvAwaitSignal :: after ∧
    steps before = [] ∧
    steps after
    = [StepWatchdogStop;
       StepShutdown (WithTimeout Background (30 * Second)); StepCleanup]
      ++ (StepTeardown <$> CanPorts c).
Proof.
  intros out.
  assert (res out = Ok ExitDone) as H1 by (by vm_compute).
  split; [exact H1|].
  exact (main_clean_exit (scripted middle_bad) ["can-bridge"] NewService
           0%nat H1).
Defined.

Lemma main_shutdown_deadline_witness :
  let out := main (scripted middle_bad) ["can-bridge"] NewService 0%nat in
  let ctx := WithTimeout Background (30 * Second) in
  EvShutdown ctx (Some "context deadline exceeded") ∈ trace out ∧
  deadline ctx = Some (30 * Second).
Proof.
  intros out ctx.
  assert (EvShutdown ctx (Some "context deadline exceeded") ∈ trace out)
    as H1 by by_run.
  split; [exact H1|].
  exact (main_shutdown_deadline (scripted middle_bad) ["can-bridge"]
           NewService 0%nat _ _ H1).
Defined.
